(** * Health Connect sync plugin: the projection engine of [src/main.ts]

    A shallow embedding of the final iteration of the plugin (the first
    class [HassConnectPlugin] of [src/main.ts], with the reading types of
    [src/types.ts]) and the properties of its specification.

    Layout: the JavaScript runtime the code relies on (strings, objects,
    numbers, [RegExp], [String.prototype.replace]), the Obsidian host, the
    plugin itself, and then the theorems. *)

From Stdlib Require Import ZArith NArith QArith Qround Qabs Lia List String Ascii DecimalString Sorting.Sorted Permutation.
From stdpp Require Import base option list gmap strings.

Open Scope N_scope.

(** ** JavaScript strings

    A JavaScript string is a sequence of UTF-16 code units; [length],
    [padStart], [startsWith], the template literals and the regular
    expressions of the plugin all work on code units. *)

Abbreviation code_unit := N (only parsing).
Abbreviation jsstring := (list N) (only parsing).

(** [js "..."] is a string literal.  The escapes [\n], [\r] and [\\] are
    those of the TypeScript source; every other character stands for its
    own code. *)
Fixpoint js (s : string) : jsstring :=
  match s with
  | EmptyString => []
  | String c EmptyString => [N_of_ascii c]
  | String c (String d rest as tl) =>
      if Ascii.eqb c "\"%char then
        (if Ascii.eqb d "n"%char then 10
         else if Ascii.eqb d "r"%char then 13
         else N_of_ascii d) :: js rest
      else N_of_ascii c :: js tl
  end.

Definition str_eqb (a b : jsstring) : bool := bool_decide (a = b).

(** [s.startsWith(prefix)] *)
Fixpoint startsWith (s prefix : jsstring) {struct prefix} : bool :=
  match prefix, s with
  | [], _ => true
  | p :: prefix', c :: s' => (c =? p) && startsWith s' prefix'
  | _ :: _, [] => false
  end.

(** [s.endsWith(suffix)] *)
Definition endsWith (s suffix : jsstring) : bool :=
  startsWith (reverse s) (reverse suffix).

(** [s.padStart(n)]: pads with spaces on the left up to [n] code units. *)
Definition padStart (s : jsstring) (n : nat) : jsstring :=
  repeat 32 (n - length s)%nat ++ s.

(** ["-".repeat(n)] and friends. *)
Definition str_repeat (s : jsstring) (n : nat) : jsstring :=
  concat (repeat s n).

(** [s.split(sep)] for a one-unit separator: never empty. *)
Fixpoint split_on (sep : code_unit) (s : jsstring) : list jsstring :=
  match s with
  | [] => [[]]
  | c :: s' =>
      if c =? sep then [] :: split_on sep s'
      else match split_on sep s' with
           | [] => [[c]]
           | w :: ws => (c :: w) :: ws
           end
  end.

(** [parts.join(sep)] *)
Fixpoint join (sep : jsstring) (parts : list jsstring) : jsstring :=
  match parts with
  | [] => []
  | [w] => w
  | w :: ws => w ++ sep ++ join sep ws
  end.

(** [a.includes(x)] on an array of strings ([contains] is Obsidian's alias). *)
Definition includes (a : list jsstring) (x : jsstring) : bool :=
  existsb (str_eqb x) a.

(** First occurrence of [needle] in [hay]: what precedes it and what
    follows it. *)
Fixpoint find_sub (needle hay : jsstring) : option (jsstring * jsstring) :=
  if startsWith hay needle then Some ([], drop (length needle) hay)
  else match hay with
       | [] => None
       | c :: hay' =>
           match find_sub needle hay' with
           | Some (pre, post) => Some (c :: pre, post)
           | None => None
           end
       end.

(** ** JavaScript objects

    An object used as a dictionary is its list of own properties in
    creation order (the order of the members in the JSON text it was parsed
    from).  Property keys are strings and occur once. *)

Abbreviation JSObject V := (list (jsstring * V)) (only parsing).

(** [o[k]] *)
Fixpoint obj_get {V} (k : jsstring) (o : JSObject V) : option V :=
  match o with
  | [] => None
  | (k', v) :: o' => if str_eqb k k' then Some v else obj_get k o'
  end.

(** [o[k] = v]: an existing property keeps its place, a new one is added
    last. *)
Fixpoint obj_set {V} (k : jsstring) (v : V) (o : JSObject V) : JSObject V :=
  match o with
  | [] => [(k, v)]
  | (k', v') :: o' =>
      if str_eqb k k' then (k', v) :: o' else (k', v') :: obj_set k v o'
  end.

Definition is_digit (c : code_unit) : bool := (48 <=? c) && (c <=? 57).

Fixpoint digits_value (acc : N) (s : jsstring) : option N :=
  match s with
  | [] => Some acc
  | c :: s' => if is_digit c then digits_value (acc * 10 + (c - 48)) s' else None
  end.

(** A key is an array index when it is the canonical decimal form of an
    integer below 2^32 - 1 (ECMAScript, "array index"). *)
Definition array_index (k : jsstring) : option N :=
  match k with
  | [] => None
  | c :: rest =>
      if (c =? 48) && negb (bool_decide (rest = [])) then None
      else match digits_value 0 k with
           | Some n => if n <? 2 ^ 32 - 1 then Some n else None
           | None => None
           end
  end.

Definition index_or_zero (k : jsstring) : N := default 0 (array_index k).

Fixpoint insert_by_index {V} (e : jsstring * V) (l : JSObject V) : JSObject V :=
  match l with
  | [] => [e]
  | e' :: l' =>
      if index_or_zero e.1 <? index_or_zero e'.1 then e :: l
      else e' :: insert_by_index e l'
  end.

Definition sort_by_index {V} (l : JSObject V) : JSObject V :=
  foldr insert_by_index [] l.

(** [for (const k in o)] and [Object.values(o)] visit the own properties in
    the order of OrdinaryOwnPropertyKeys: the array-index keys in ascending
    numeric order, then the other keys in creation order. *)
Definition for_in {V} (o : JSObject V) : JSObject V :=
  sort_by_index (filter (fun e => is_Some (array_index e.1)) o)
  ++ filter (fun e => array_index e.1 = None) o.

(** [Object.values(o).last()] ([last] is Obsidian's array extension). *)
Definition obj_values_last {V} (o : JSObject V) : option V :=
  snd <$> last (for_in o).

(** ** JavaScript numbers

    The plugin only rounds, divides by sixty, adds and prints numbers.  These
    operations are kept behind an interface, so that every general theorem
    holds for any implementation of them, IEEE-754 doubles included. *)

Class JSNumber := {
  number : Type;
  Math_round : number -> number;             (* Math.round(x) *)
  String_number : number -> jsstring;        (* String(x) *)
  Number_string : jsstring -> number;        (* Number(s) *)
  num_add : number -> number -> number;      (* x + y *)
  num_div : number -> number -> number;      (* x / y *)
  num_of_Z : Z -> number;                    (* integer literals *)
}.

(** *** A reference implementation

    Exact rationals and NaN.  It agrees with doubles on the integers below
    2^53 and on the short decimal fractions, which is what health readings
    are; it serves to run the plugin on concrete snapshots. *)

Inductive qnum := QNaN | QNum (q : Q).

Definition dec_of_N (n : N) : jsstring :=
  map N_of_ascii (list_ascii_of_string (NilEmpty.string_of_uint (N.to_uint n))).

Fixpoint frac_digits (fuel : nat) (f : Q) : jsstring :=
  match fuel with
  | O => []
  | S fuel' =>
      if Qeq_bool f 0 then []
      else let f10 := Qred (f * 10) in
           let d := Qfloor f10 in
           (48 + Z.to_N d) :: frac_digits fuel' (Qred (f10 - inject_Z d))
  end.

Definition String_qnum (x : qnum) : jsstring :=
  match x with
  | QNaN => js "NaN"
  | QNum q =>
      let a := Qabs q in
      let whole := Qfloor a in
      let frac := Qred (a - inject_Z whole) in
      (if Qlt_le_dec q 0 then js "-" else [])
      ++ dec_of_N (Z.to_N whole)
      ++ (if Qeq_bool frac 0 then [] else js "." ++ frac_digits 17 frac)
  end.

Definition Number_qnum (s : jsstring) : qnum :=
  match s with
  | [] => QNum 0
  | _ => match digits_value 0 s with
         | Some n => QNum (inject_Z (Z.of_N n))
         | None => QNaN
         end
  end.

Definition lift_qnum (f : Q -> Q -> Q) (x y : qnum) : qnum :=
  match x, y with
  | QNum a, QNum b => QNum (Qred (f a b))
  | _, _ => QNaN
  end.

Definition div_qnum (x y : qnum) : qnum :=
  match y with
  | QNum b => if Qeq_bool b 0 then QNaN else lift_qnum Qdiv x y
  | QNaN => QNaN
  end.

Definition round_qnum (x : qnum) : qnum :=
  match x with
  | QNaN => QNaN
  | QNum q => QNum (inject_Z (Qfloor (q + (1 # 2))))
  end.

#[global] Instance QNumber : JSNumber := {|
  number := qnum;
  Math_round := round_qnum;
  String_number := String_qnum;
  Number_string := Number_qnum;
  num_add := lift_qnum Qplus;
  num_div := div_qnum;
  num_of_Z := fun z => QNum (inject_Z z);
|}.

(** ** Regular expressions

    The fragment of ECMAScript patterns that the plugin builds: pattern
    characters, character classes, greedy [*] and [+] on a one-unit atom,
    [^] and [$] under the [m] flag, sequence, alternative, numbered capture
    groups and negative lookahead.  [matcher] is the backtracking matcher
    of the language definition, in continuation-passing style: the
    continuation receives what the pattern consumed, the code unit before
    the new position, the rest of the input and the captures. *)

Inductive atom :=
| Chr (c : code_unit)
| Cls (cs : list code_unit)
| NCls (cs : list code_unit).

Inductive regex :=
| One (a : atom)
| Many (a : atom)
| Many1 (a : atom)
| Bol
| Eol
| Eps
| Cat (r s : regex)
| Alt (r s : regex)
| Grp (n : nat) (r : regex)
| NotAhead (r : regex).

Abbreviation captures := (list (nat * jsstring)) (only parsing).

Definition atom_ok (a : atom) (c : code_unit) : bool :=
  match a with
  | Chr x => c =? x
  | Cls cs => existsb (N.eqb c) cs
  | NCls cs => negb (existsb (N.eqb c) cs)
  end.

(** LineTerminator: LF, CR, LS, PS. *)
Definition LineTerminator (c : code_unit) : bool :=
  (c =? 10) || (c =? 13) || (c =? 8232) || (c =? 8233).

Definition at_bol (prev : option code_unit) : bool :=
  match prev with None => true | Some c => LineTerminator c end.

Definition at_eol (rest : jsstring) : bool :=
  match rest with [] => true | c :: _ => LineTerminator c end.

Fixpoint many {R} (a : atom) (prev : option code_unit) (rest : jsstring)
    (k : jsstring -> option code_unit -> jsstring -> option R) : option R :=
  match rest with
  | c :: rest' =>
      if atom_ok a c then
        match many a (Some c) rest' (fun w p r => k (c :: w) p r) with
        | Some res => Some res
        | None => k [] prev rest
        end
      else k [] prev rest
  | [] => k [] prev rest
  end.

Fixpoint matcher {R} (r : regex) (prev : option code_unit) (rest : jsstring)
    (caps : captures)
    (k : jsstring -> option code_unit -> jsstring -> captures -> option R)
    : option R :=
  match r with
  | One a =>
      match rest with
      | c :: rest' => if atom_ok a c then k [c] (Some c) rest' caps else None
      | [] => None
      end
  | Many a => many a prev rest (fun w p r => k w p r caps)
  | Many1 a =>
      match rest with
      | c :: rest' =>
          if atom_ok a c
          then many a (Some c) rest' (fun w p r => k (c :: w) p r caps)
          else None
      | [] => None
      end
  | Bol => if at_bol prev then k [] prev rest caps else None
  | Eol => if at_eol rest then k [] prev rest caps else None
  | Eps => k [] prev rest caps
  | Cat r1 r2 =>
      matcher r1 prev rest caps (fun w1 p1 rest1 caps1 =>
        matcher r2 p1 rest1 caps1 (fun w2 p2 rest2 caps2 =>
          k (w1 ++ w2) p2 rest2 caps2))
  | Alt r1 r2 =>
      match matcher r1 prev rest caps k with
      | Some res => Some res
      | None => matcher r2 prev rest caps k
      end
  | Grp n r1 =>
      matcher r1 prev rest caps (fun w p rest' caps' =>
        k w p rest' ((n, w) :: caps'))
  | NotAhead r1 =>
      match matcher r1 prev rest caps (fun _ _ _ _ => Some tt) with
      | Some _ => None
      | None => k [] prev rest caps
      end
  end.

Fixpoint group_count (r : regex) : nat :=
  match r with
  | Cat r1 r2 | Alt r1 r2 => group_count r1 + group_count r2
  | Grp _ r1 => S (group_count r1)
  | NotAhead r1 => group_count r1
  | _ => 0
  end.

(** The result of [RegExp.prototype.exec]: the input before the match, the
    matched text, the input after it, and the captures. *)
Record MatchResult := {
  m_before : jsstring;
  m_matched : jsstring;
  m_after : jsstring;
  m_captures : captures;
}.

(** Without the [g] and [y] flags the search starts at index 0 and tries
    every index up to the length of the input. *)
Fixpoint exec_from (re : regex) (before_rev : jsstring)
    (prev : option code_unit) (rest : jsstring) : option MatchResult :=
  match matcher re prev rest []
          (fun w _ rest' caps =>
             Some {| m_before := reverse before_rev; m_matched := w;
                     m_after := rest'; m_captures := caps |}) with
  | Some res => Some res
  | None =>
      match rest with
      | [] => None
      | c :: rest' => exec_from re (c :: before_rev) (Some c) rest'
      end
  end.

Definition RegExp_exec (re : regex) (s : jsstring) : option MatchResult :=
  exec_from re [] None s.

(** [re.test(s)] *)
Definition RegExp_test (re : regex) (s : jsstring) : bool :=
  bool_decide (is_Some (RegExp_exec re s)).

(** The text of capture [n]; a group that did not take part gives the
    empty string. *)
Fixpoint capture (caps : captures) (n : nat) : jsstring :=
  match caps with
  | [] => []
  | (n', w) :: caps' => if Nat.eqb n n' then w else capture caps' n
  end.

Definition digit_val (c : code_unit) : nat := N.to_nat (c - 48).

(** GetSubstitution (ECMAScript 22.1.3.19.1) for a pattern with [ncap]
    capture groups and no named groups: [$$], [$&], [$`], [$'], [$n] and
    [$nn]; a two-digit reference beyond the number of groups falls back to
    its first digit, a reference to group 0 or beyond the number of groups
    stays as written, and so does every other [$]. *)
Fixpoint GetSubstitution (matched before after : jsstring) (ncap : nat)
    (caps : captures) (template : jsstring) : jsstring :=
  match template with
  | [] => []
  | c :: rest =>
      if negb (c =? 36) then
        c :: GetSubstitution matched before after ncap caps rest
      else
        match rest with
        | [] => [36]
        | d :: t =>
            if d =? 36 then
              36 :: GetSubstitution matched before after ncap caps t
            else if d =? 38 then
              matched ++ GetSubstitution matched before after ncap caps t
            else if d =? 96 then
              before ++ GetSubstitution matched before after ncap caps t
            else if d =? 39 then
              after ++ GetSubstitution matched before after ncap caps t
            else if is_digit d then
              let one :=
                if (1 <=? digit_val d)%nat && (digit_val d <=? ncap)%nat
                then capture caps (digit_val d)
                       ++ GetSubstitution matched before after ncap caps t
                else 36 :: d
                       :: GetSubstitution matched before after ncap caps t in
              match t with
              | d2 :: t2 =>
                  let nn := (10 * digit_val d + digit_val d2)%nat in
                  if is_digit d2 && (1 <=? nn)%nat && (nn <=? ncap)%nat
                  then capture caps nn
                         ++ GetSubstitution matched before after ncap caps t2
                  else one
              | [] => one
              end
            else
              36 :: d :: GetSubstitution matched before after ncap caps t
        end
  end.

(** [s.replace(re, template)] for a pattern without the [g] flag: the
    first match is replaced. *)
Definition String_replace_regex (s : jsstring) (re : regex)
    (template : jsstring) : jsstring :=
  match RegExp_exec re s with
  | None => s
  | Some r =>
      m_before r
      ++ GetSubstitution (m_matched r) (m_before r) (m_after r)
           (group_count re) (m_captures r) template
      ++ m_after r
  end.

(** [s.replace(pattern, template)] for a string pattern: the first
    occurrence is replaced, and the template is expanded all the same. *)
Definition String_replace_string (s pattern template : jsstring) : jsstring :=
  match find_sub pattern s with
  | None => s
  | Some (pre, post) =>
      pre ++ GetSubstitution pattern pre post 0 [] template ++ post
  end.

(** A pattern matching the text [s] itself. *)
Fixpoint Lit (s : jsstring) : regex :=
  match s with
  | [] => Eps
  | c :: s' => Cat (One (Chr c)) (Lit s')
  end.

(** SyntaxCharacter: the code units that do not stand for themselves in the
    source of a pattern. *)
Definition SyntaxCharacter (c : code_unit) : bool :=
  existsb (N.eqb c) (js "^$\\.*+?()[]{}|").

(** A heading name that reads as itself when spliced into a pattern. *)
Definition plain_heading (h : jsstring) : bool :=
  forallb (fun c => negb (SyntaxCharacter c)) h.

(** ** The reading types of [src/types.ts]

    [date], [unit] are strings; [timestamp], [seconds], [kilograms],
    [percent] are numbers.  [ExerciseSession.segments] ([any[]]) is never
    read and is left out. *)

Section Readings.
Context `{JSNumber}.

Record CaloriesDay := {
  energy : number;
  cal_format : jsstring;
  cal_startTime : number;
  cal_endTime : number;
}.

Record ExerciseSession := {
  duration : number;
  durationFormatted : jsstring;
  endTime : number;
  exerciseName : jsstring;
  exerciseType : jsstring;
  notes : option jsstring;
  startTime : number;
  title : option jsstring;
}.

Record ExerciseDay := {
  sessions : list ExerciseSession;
  totalSessions : number;
  totalDuration : number;
  totalDurationFormatted : jsstring;
}.

Record HeartRateReading := {
  bpm : number;
  time : number;
}.

Record HydrationDay := {
  volume : number;
  hyd_format : jsstring;
  hyd_startTime : number;
  hyd_endTime : number;
}.

Record SleepSession := {
  sleep_duration : number;
  sleep_startTime : number;
  sleep_endTime : number;
}.

Record SleepStage := {
  stage_code : jsstring;
  stageFormat : jsstring;
  totalTime : number;
  totalTimeFormat : jsstring;
  occurrences : number;
  percentage : number;
  stage_sessions : list SleepSession;
}.

Record SleepDay := {
  sleep_start : number;
  sleep_end : number;
  stage : list SleepStage;
}.

Record StepDay := {
  count : number;
  step_start : number;
  step_end : number;
}.

(** Every collection may be null or undefined: [None]. *)
Record SensorData := {
  calories : option (JSObject CaloriesDay);
  exercise : option (JSObject ExerciseDay);
  heart : option (JSObject (JSObject HeartRateReading));
  hydration : option (JSObject HydrationDay);
  oxygen : option (JSObject (JSObject number));
  sleep : option (JSObject SleepDay);
  steps : option (JSObject StepDay);
  weight : option (JSObject (JSObject number));
}.

(** What [requestUrl] resolves to: the status and, parsed, the
    [attributes] of the JSON body. *)
Record Response := {
  status : N;
  attributes : SensorData;
}.

End Readings.

(** ** Settings *)

Record HassConnectSettings := {
  token : jsstring;
  instance_uri : jsstring;
  sensor : jsstring;
  refresh_interval : Z;
  create_daily_notes : bool;
  format_times : bool;
  tables_subfolder : jsstring;
  calorie_field : jsstring;
  exercise_field : jsstring;
  hydration_field : jsstring;
  steps_field : jsstring;
  weight_field : jsstring;
  total_sleep_field : jsstring;
  heartrate_section : jsstring;
  blood_oxygen_section : jsstring;
  exercise_list_section : jsstring;
  summary_section : jsstring;
}.

Definition DEFAULT_SETTINGS : HassConnectSettings := {|
  token := [];
  instance_uri := [];
  sensor := js "health_connect";
  tables_subfolder := js "tables";
  create_daily_notes := true;
  refresh_interval := 1000 * 60 * 60 * 6;
  format_times := false;
  calorie_field := js "Active Calories";
  exercise_field := js "Exercise Minutes";
  hydration_field := js "mL Hydrated";
  steps_field := js "Steps";
  weight_field := js "Weight";
  total_sleep_field := js "Total Sleep";
  heartrate_section := js "Heartrate";
  blood_oxygen_section := js "Blood Oxygen";
  exercise_list_section := js "Oefening";
  summary_section := js "Gezondheid";
|}.

Definition IGNORED_DATES : list jsstring := [js "lastSleep"].

Definition UNCOUNTED_SLEEP_STAGES : list jsstring := [js "Awake"].

Definition EXERCISE_TYPE_MAPPINGS : JSObject jsstring :=
  [(js "Treadmill Running", js "Treadmill")].

(** ** The host: Obsidian's vault, moment and the daily-notes plugin

    A note has two regions: the front matter, which [processFrontMatter]
    hands to its callback as an object, and the text below it, which is what
    the model gives for [vault.read] and takes for [vault.modify].  A [TFile]
    is its path. *)

Record Note := {
  frontmatter : JSObject jsstring;
  content : jsstring;
}.

(** What a rejected promise or a [throw] carries. *)
Inductive exn :=
| Thrown (msg : jsstring)        (* a [throw] of the plugin *)
| StorageError (path : jsstring). (* the vault refusing an operation *)

(** [files] and [folders] are the vault; [faulty] lists the paths at which
    the storage layer refuses to create anything; [summary] is the plugin's
    [this.summary]; [notices] collects the [Notice]s shown. *)
Record State := {
  files : gmap (list N) Note;
  folders : gset (list N);
  faulty : gset (list N);
  summary : JSObject (JSObject jsstring);
  notices : list jsstring;
}.

Class Host `{JSNumber} := {
  (* window.moment(raw_date, "YYYY-MM-DD").format(fmt) *)
  moment_format : jsstring -> jsstring -> jsstring;
  (* window.moment(time, "X").format(fmt) *)
  moment_unix_format : number -> jsstring -> jsstring;
  (* the options of the daily-notes core plugin *)
  daily_note_format : jsstring;
  daily_note_folder : jsstring;
  (* the note that createDailyNote writes for a date (its template) *)
  daily_note_template : jsstring -> Note;
}.

(** ** Asynchronous code

    An [async] function is a state transformer that resolves ([Ok]) or
    rejects ([Throw]); [await] is sequencing, and a rejection ends the
    awaiting function at once.  The effects made before a rejection stay.
    The run is one logical task: the model runs every call to completion
    where it is made. *)

Inductive outcome (A : Type) :=
| Ok (a : A)
| Throw (e : exn).
Arguments Ok {A} a.
Arguments Throw {A} e.

Definition M (A : Type) : Type := State -> outcome A * State.

Definition ret {A} (a : A) : M A := fun s => (Ok a, s).

Definition bind {A B} (c : M A) (f : A -> M B) : M B :=
  fun s => match c s with
           | (Ok a, s') => f a s'
           | (Throw e, s') => (Throw e, s')
           end.

Definition throw {A} (e : exn) : M A := fun s => (Throw e, s).

Declare Scope async_scope.
Delimit Scope async_scope with async.
Notation "x <- c ;; k" := (bind c (fun x => k))
  (at level 100, c at next level, right associativity) : async_scope.
Notation "c ;; k" := (bind c (fun _ => k))
  (at level 100, right associativity) : async_scope.
Open Scope async_scope.

(** A call whose promise is neither awaited nor returned: the caller goes
    on whatever becomes of it, and a rejection is lost. *)
Definition unawaited {A} (c : M A) : M unit :=
  fun s => (Ok tt, snd (c s)).

(** [for (const x of l) { await body(x) }] *)
Fixpoint for_each {A} (l : list A) (body : A -> M unit) : M unit :=
  match l with
  | [] => ret tt
  | x :: l' => body x ;; for_each l' body
  end.

Definition get_state : M State := fun s => (Ok s, s).

Definition modify_state (f : State -> State) : M unit := fun s => (Ok tt, f s).

Definition set_files (f : gmap (list N) Note -> gmap (list N) Note) (s : State) : State :=
  {| files := f (files s); folders := folders s; faulty := faulty s;
     summary := summary s; notices := notices s |}.

Definition set_folders (f : gset (list N) -> gset (list N)) (s : State) : State :=
  {| files := files s; folders := f (folders s); faulty := faulty s;
     summary := summary s; notices := notices s |}.

Definition set_summary
    (f : JSObject (JSObject jsstring) -> JSObject (JSObject jsstring))
    (s : State) : State :=
  {| files := files s; folders := folders s; faulty := faulty s;
     summary := f (summary s); notices := notices s |}.

(** [new Notice(text)] *)
Definition Notice (text : jsstring) : M unit :=
  modify_state (fun s =>
    {| files := files s; folders := folders s; faulty := faulty s;
       summary := summary s; notices := notices s ++ [text] |}).

(** *** The vault *)

(** [vault.getFileByPath(path)]: null ([None]) when there is no such file. *)
Definition vault_getFileByPath (path : jsstring) : M (option jsstring) :=
  fun s => (Ok (match files s !! path with Some _ => Some path | None => None end), s).

(** [vault.getFolderByPath(path) == null] *)
Definition vault_folder_missing (path : jsstring) : M bool :=
  fun s => (Ok (bool_decide (path ∉ folders s)), s).

(** [vault.createFolder(path)] *)
Definition vault_createFolder (path : jsstring) : M unit :=
  fun s => if bool_decide (path ∈ faulty s) then (Throw (StorageError path), s)
           else (Ok tt, set_folders (union {[path]}) s).

(** [vault.create(path, data)]: rejects where the storage refuses and where
    a file exists already. *)
Definition vault_create (path : jsstring) (note : Note) : M jsstring :=
  fun s => if bool_decide (path ∈ faulty s) then (Throw (StorageError path), s)
           else match files s !! path with
                | Some _ => (Throw (StorageError path), s)
                | None => (Ok path, set_files (insert path note) s)
                end.

(** [vault.read(file)] *)
Definition vault_read (file : jsstring) : M jsstring :=
  fun s => match files s !! file with
           | Some note => (Ok (content note), s)
           | None => (Throw (StorageError file), s)
           end.

(** [vault.modify(file, data)] *)
Definition vault_modify (file : jsstring) (data : jsstring) : M unit :=
  fun s => match files s !! file with
           | Some note =>
               (Ok tt, set_files (insert file
                  {| frontmatter := frontmatter note; content := data |}) s)
           | None => (Throw (StorageError file), s)
           end.

(** [fileManager.processFrontMatter(file, fn)]: reads the front matter,
    applies [fn] to it and commits the result. *)
Definition processFrontMatter (file : jsstring)
    (fn : JSObject jsstring -> JSObject jsstring) : M unit :=
  fun s => match files s !! file with
           | Some note =>
               (Ok tt, set_files (insert file
                  {| frontmatter := fn (frontmatter note);
                     content := content note |}) s)
           | None => (Throw (StorageError file), s)
           end.

(** ** The plugin: [HassConnectPlugin] *)

Section Plugin.
Context `{Host}.
Variable settings : HassConnectSettings.

(** A string is truthy, and [!= ""], when it is not empty. *)
Definition nonempty (s : jsstring) : bool := negb (str_eqb s []).

(** [createDailyNote(date)] of obsidian-daily-notes-interface is not part
    of the plugin.  It is taken by its declared type [Promise<TFile>]: it
    writes the template of the date at the daily path and resolves to the
    file, or it rejects. *)
Definition createDailyNote (raw_date : jsstring) : M jsstring :=
  vault_create
    (daily_note_folder ++ js "/" ++ moment_format raw_date daily_note_format
       ++ js ".md")
    (daily_note_template raw_date).

Definition dailyNotePathFor (raw_date : jsstring) (for_table : bool)
    : M jsstring :=
  let parts := split_on 47 daily_note_format in
  let daily_note_path_day_section := default [] (last parts) in
  let daily_note_path_nonday_section :=
    if (1 <? length parts)%nat then join (js "/") (removelast parts) else [] in
  if for_table && nonempty (tables_subfolder settings) then
    let formatted_day_section :=
      moment_format raw_date daily_note_path_day_section in
    let formatted_nonday_section :=
      moment_format raw_date daily_note_path_nonday_section in
    let target_subfolder :=
      daily_note_folder ++ js "/" ++ formatted_nonday_section ++ js "/"
        ++ tables_subfolder settings in
    missing <- vault_folder_missing target_subfolder ;;
    (if missing : bool then vault_createFolder target_subfolder else ret tt) ;;
    ret (target_subfolder ++ js "/" ++ formatted_day_section
           ++ js " Tables.md")
  else
    let formatted_filename := moment_format raw_date daily_note_format in
    ret (daily_note_folder ++ js "/" ++ formatted_filename ++ js ".md").

Definition getTableNoteInitialContents : jsstring :=
  (if nonempty (heartrate_section settings)
   then js "# " ++ heartrate_section settings ++ js "\n\n" else [])
  ++ (if nonempty (blood_oxygen_section settings)
      then js "# " ++ blood_oxygen_section settings ++ js "\n\n" else []).

Definition dailyNoteFor (raw_date : jsstring) (for_table : bool)
    : M jsstring :=
  daily_note_path <- dailyNotePathFor raw_date for_table ;;
  daily_note <- vault_getFileByPath daily_note_path ;;
  daily_note <-
    (match daily_note with
     | None =>
         if create_daily_notes settings then
           if for_table && nonempty (tables_subfolder settings) then
             f <- vault_create daily_note_path
                    {| frontmatter := [];
                       content := getTableNoteInitialContents |} ;;
             ret (Some f)
           else
             f <- createDailyNote raw_date ;;
             ret (Some f)
         else ret None
     | Some f => ret (Some f)
     end) ;;
  match daily_note with
  | None => throw (Thrown (js "unable to create daily note!"))
  | Some f => ret f
  end.

Definition storeToSummary (target_date field value : jsstring) : M unit :=
  modify_state (set_summary (fun summary =>
    let summary :=
      match obj_get target_date summary with
      | None => obj_set target_date [] summary
      | Some _ => summary
      end in
    obj_set target_date
      (obj_set field value (default [] (obj_get target_date summary)))
      summary)).

(** The promise of [processFrontMatter] is not awaited. *)
Definition updateFrontMatter (target_date field value : jsstring) : M unit :=
  file_to_edit <- dailyNoteFor target_date false ;;
  unawaited (processFrontMatter file_to_edit (obj_set field value)) ;;
  storeToSummary target_date field value.

Definition updateFrontMatterByField {V} (readings : option (JSObject V))
    (field : jsstring) (selector : V -> jsstring) : M unit :=
  match readings with
  | None => ret tt
  | Some readings =>
      for_each (for_in readings) (fun '(date, reading) =>
        if includes IGNORED_DATES date then ret tt
        else
          let value := selector reading in
          if negb (str_eqb value (js "undefined"))
          then updateFrontMatter date field value
          else ret tt)
  end.

(** [RegExp(`(^#+ ${heading_regex}[ ]*\\n)[^#]*((\\n#)|($(?![\r\n])))`, "m")].
    The heading is spliced into the source of the pattern; the model reads
    it as the text itself, which is what the pattern means for a
    [plain_heading]. *)
Definition section_regex (heading_regex : jsstring) : regex :=
  Cat (Grp 1 (Cat Bol (Cat (Many1 (Chr 35)) (Cat (One (Chr 32))
         (Cat (Lit heading_regex) (Cat (Many (Cls [32])) (One (Chr 10))))))))
 (Cat (Many (NCls [35]))
      (Grp 2 (Alt (Grp 3 (Cat (One (Chr 10)) (One (Chr 35))))
                  (Grp 4 (Cat Eol (NotAhead (One (Cls [13; 10])))))))).

(** The text that [replaceSection] writes back when the pattern matches. *)
Definition replaceSection_content (heading_regex new_section_content
    content : jsstring) : jsstring :=
  let new_section_content_escaped :=
    String_replace_string new_section_content (js "$") (js "$$") in
  String_replace_regex content (section_regex heading_regex)
    (js "$1" ++ new_section_content_escaped ++ js "$2").

Definition replaceSection (date heading_regex new_section_content : jsstring)
    (new_content_is_table : bool) : M unit :=
  if str_eqb heading_regex [] then ret tt
  else
    target_file <- dailyNoteFor date new_content_is_table ;;
    content <- vault_read target_file ;;
    if negb (RegExp_test (section_regex heading_regex) content) then ret tt
    else
      let new_content :=
        replaceSection_content heading_regex new_section_content content in
      vault_modify target_file new_content.

Definition updateCalories (readings : option (JSObject CaloriesDay)) : M unit :=
  updateFrontMatterByField readings (calorie_field settings)
    (fun e => String_number (Math_round (energy e))).

Definition updateExercise (readings : option (JSObject ExerciseDay)) : M unit :=
  match readings with
  | None => ret tt
  | Some readings =>
      for_each (for_in readings) (fun '(date, days_exercise) =>
        let exercise_list :=
          fold_left (fun exercise_list session =>
            let exercise_name :=
              match obj_get (exerciseName session) EXERCISE_TYPE_MAPPINGS with
              | Some mapped => mapped
              | None => exerciseName session
              end in
            exercise_list ++ js "  - **" ++ durationFormatted session
              ++ js "**: " ++ exercise_name ++ js "\n")
            (sessions days_exercise) [] in
        replaceSection date (exercise_list_section settings) exercise_list
          false ;;
        let total_exercise :=
          num_div (totalDuration days_exercise) (num_of_Z 60) in
        updateFrontMatter date (exercise_field settings)
          (String_number (Math_round total_exercise)))
  end.

Definition renderTime (time : number) : jsstring :=
  let formatting :=
    if format_times settings then js "HH:mm:ss"
    else js "YYYY-MM-DD HH:mm:ss" in
  moment_unix_format time formatting.

Definition generateTableFromData {V} (readings : JSObject V)
    (selector : V -> jsstring) (header slug : jsstring) : jsstring :=
  let new_table := js "\n| Time     | " ++ header ++ js " |\n" in
  let datum_length := length header in
  let dashes_for_header := str_repeat (js "-") datum_length in
  let new_table :=
    new_table ++ js "|----------|-" ++ dashes_for_header ++ js "-|\n" in
  let new_table :=
    fold_left (fun new_table '(time, sample) =>
      let print_time := renderTime (Number_string time) in
      let print_sample := padStart (selector sample) (length header) in
      new_table ++ js "| " ++ print_time ++ js " | " ++ print_sample
        ++ js " |\n")
      (for_in readings) new_table in
  new_table ++ js "^" ++ slug ++ js "\n\n".

Definition updateDailyTables {V} (readings : option (JSObject (JSObject V)))
    (target_section : jsstring) (selector : V -> jsstring)
    (header slug : jsstring) : M unit :=
  match readings with
  | None => ret tt
  | Some readings =>
      for_each (for_in readings) (fun '(date, samples) =>
        let new_table := generateTableFromData samples selector header slug in
        replaceSection date target_section new_table true)
  end.

Definition updateHeartrate
    (readings : option (JSObject (JSObject HeartRateReading))) : M unit :=
  updateDailyTables readings (heartrate_section settings)
    (fun e => String_number (bpm e)) (js "BPM") (js "heartrate").

Definition updateHydration (readings : option (JSObject HydrationDay))
    : M unit :=
  updateFrontMatterByField readings (hydration_field settings)
    (fun e => String_number (volume e)).

Definition updateBloodOxygen
    (readings : option (JSObject (JSObject number))) : M unit :=
  updateDailyTables readings (blood_oxygen_section settings)
    (fun e => String_number e) (js "SpO2 %") (js "spo2").

Definition getStageKey (formattedName : SleepStage) : jsstring :=
  stageFormat formattedName.

(** The body of [days_sleep.stage.forEach]: [total] is
    [total_sleep_minutes].  [updateFrontMatter] is called without [await]. *)
Fixpoint updateSleep_stages (date : jsstring) (stages : list SleepStage)
    (total : number) : M number :=
  match stages with
  | [] => ret total
  | stage :: stages' =>
      let front_matter_key := getStageKey stage in
      if includes UNCOUNTED_SLEEP_STAGES (stageFormat stage)
      then updateSleep_stages date stages' total
      else
        let sleep_minutes :=
          fold_left (fun sleep_minutes session =>
            num_add sleep_minutes
              (num_div (sleep_duration session) (num_of_Z 60)))
            (stage_sessions stage) (num_of_Z 0) in
        unawaited (updateFrontMatter date front_matter_key
                     (String_number sleep_minutes)) ;;
        updateSleep_stages date stages' (num_add total sleep_minutes)
  end.

Definition updateSleep (readings : option (JSObject SleepDay)) : M unit :=
  match readings with
  | None => ret tt
  | Some readings =>
      for_each (for_in readings) (fun '(date, days_sleep) =>
        if includes IGNORED_DATES date then ret tt
        else
          total_sleep_minutes <-
            updateSleep_stages date (stage days_sleep) (num_of_Z 0) ;;
          unawaited (updateFrontMatter date (total_sleep_field settings)
                       (String_number total_sleep_minutes)))
  end.

Definition updateSteps (readings : option (JSObject StepDay)) : M unit :=
  updateFrontMatterByField readings (steps_field settings)
    (fun e => String_number (count e)).

(** [String(undefined)] is ["undefined"]. *)
Definition updateWeight (readings : option (JSObject (JSObject number)))
    : M unit :=
  updateFrontMatterByField readings (weight_field settings)
    (fun e => match obj_values_last e with
              | Some v => String_number v
              | None => js "undefined"
              end).

(** [replaceSection] is called without [await]. *)
Definition updateSummary : M unit :=
  if str_eqb (summary_section settings) [] then ret tt
  else
    s <- get_state ;;
    for_each (for_in (summary s)) (fun '(date, daily_summary) =>
      let summary_section_text :=
        fold_left (fun summary_section_text '(field, value) =>
          summary_section_text ++ js "**" ++ field ++ js "**:: " ++ value
            ++ js "\n")
          (for_in daily_summary) (js "\n") in
      unawaited (replaceSection date (summary_section settings)
                   summary_section_text false)).

Definition getSensorURL : jsstring :=
  let separator :=
    if endsWith (instance_uri settings) (js "/") then [] else js "/" in
  let sensor_prefix :=
    if startsWith (sensor settings) (js "sensor.") then [] else js "sensor." in
  instance_uri settings ++ separator ++ js "api/states/" ++ sensor_prefix
    ++ sensor settings.

Definition getRequestHeaders : JSObject jsstring :=
  [(js "Authorization", js "Bearer " ++ token settings ++ js " ");
   (js "Content-Type", js "application/json")].

(** [response] is what [requestUrl] resolved to for [getSensorURL]. *)
Definition fetchSensorData (response : Response) : M (option SensorData) :=
  if status response =? 404 then
    Notice (js "No data to update; this is normal just after a HA restart.") ;;
    ret None
  else if negb (status response =? 200) then
    Notice (js "unable to fetch Health Connect data; check plugin configuration") ;;
    ret None
  else ret (Some (attributes response)).

Definition runSync (response : Response) : M unit :=
  sensorData <- fetchSensorData response ;;
  match sensorData with
  | None => ret tt
  | Some sensorData =>
      updateCalories (calories sensorData) ;;
      updateExercise (exercise sensorData) ;;
      updateHeartrate (heart sensorData) ;;
      updateHydration (hydration sensorData) ;;
      updateBloodOxygen (oxygen sensorData) ;;
      updateSleep (sleep sensorData) ;;
      updateSteps (steps sensorData) ;;
      updateWeight (weight sensorData) ;;
      updateSummary ;;
      Notice (js "Health Connect data sync'd.")
  end.

(** [onload]: the only place where [this.summary] is given a fresh
    object. *)
Definition onload : M unit :=
  modify_state (set_summary (fun _ => [])).

End Plugin.

(** ** A reference host

    Enough of moment to run the plugin on concrete snapshots: dates in the
    form [YYYY-MM-DD], the tokens [YYYY MM DD HH mm ss], the clock of the
    host on UTC, daily notes named [YYYY/YYYY-MM-DD] in the folder [Daily],
    and an empty template. *)

Definition pad_zero (n : nat) (s : jsstring) : jsstring :=
  repeat 48 (n - length s)%nat ++ s.

Fixpoint moment_tokens (Y Mo D h mi s : jsstring) (fmt : jsstring) : jsstring :=
  match fmt with
  | 89 :: 89 :: 89 :: 89 :: t => Y ++ moment_tokens Y Mo D h mi s t
  | 77 :: 77 :: t => Mo ++ moment_tokens Y Mo D h mi s t
  | 68 :: 68 :: t => D ++ moment_tokens Y Mo D h mi s t
  | 72 :: 72 :: t => h ++ moment_tokens Y Mo D h mi s t
  | 109 :: 109 :: t => mi ++ moment_tokens Y Mo D h mi s t
  | 115 :: 115 :: t => s ++ moment_tokens Y Mo D h mi s t
  | c :: t => c :: moment_tokens Y Mo D h mi s t
  | [] => []
  end.

Definition ref_moment_format (raw_date fmt : jsstring) : jsstring :=
  match raw_date with
  | [y1; y2; y3; y4; 45; m1; m2; 45; d1; d2] =>
      if forallb is_digit [y1; y2; y3; y4; m1; m2; d1; d2] then
        moment_tokens [y1; y2; y3; y4] [m1; m2] [d1; d2]
          (js "00") (js "00") (js "00")
          (match fmt with [] => js "YYYY-MM-DDTHH:mm:ss+00:00" | _ => fmt end)
      else js "Invalid date"
  | _ => js "Invalid date"
  end.

(** Days since 1970-01-01 to year, month, day (proleptic Gregorian). *)
Definition civil_from_days (days : N) : N * N * N :=
  let z := days + 719468 in
  let era := z / 146097 in
  let doe := z mod 146097 in
  let yoe := (doe - doe / 1460 + doe / 36524 - doe / 146096) / 365 in
  let doy := doe - (365 * yoe + yoe / 4 - yoe / 100) in
  let mp := (5 * doy + 2) / 153 in
  let d := doy - (153 * mp + 2) / 5 + 1 in
  let m := if mp <? 10 then mp + 3 else mp - 9 in
  let y := yoe + era * 400 + (if m <=? 2 then 1 else 0) in
  (y, m, d).

Definition ref_moment_unix_format (time : qnum) (fmt : jsstring) : jsstring :=
  match time with
  | QNaN => js "Invalid date"
  | QNum q =>
      if Qlt_le_dec q 0 then js "Invalid date"
      else
        let t := Z.to_N (Qfloor q) in
        let '(y, m, d) := civil_from_days (t / 86400) in
        let sod := t mod 86400 in
        moment_tokens (pad_zero 4 (dec_of_N y)) (pad_zero 2 (dec_of_N m))
          (pad_zero 2 (dec_of_N d)) (pad_zero 2 (dec_of_N (sod / 3600)))
          (pad_zero 2 (dec_of_N (sod mod 3600 / 60)))
          (pad_zero 2 (dec_of_N (sod mod 60))) fmt
  end.

#[global] Instance RefHost : @Host QNumber :=
  @Build_Host QNumber ref_moment_format ref_moment_unix_format
    (js "YYYY/YYYY-MM-DD") (js "Daily")
    (fun _ => {| frontmatter := []; content := [] |}).

(** An empty vault on a sound storage, before [onload]. *)
Definition empty_state : State := {|
  files := ∅; folders := ∅; faulty := ∅; summary := []; notices := [];
|}.

(** * Specification vocabulary *)

(** ** Matches of a pattern

    [Matches r prev rest caps w prev' rest' caps']: from the position with
    [prev] before it and [rest] ahead, the pattern [r] can consume [w] and
    reach the position [prev'], [rest'], turning the captures [caps] into
    [caps']. *)

Inductive Matches : regex -> option N -> list N -> list (nat * list N) ->
    list N -> option N -> list N -> list (nat * list N) -> Prop :=
| M_One a p c rest caps :
    atom_ok a c = true ->
    Matches (One a) p (c :: rest) caps [c] (Some c) rest caps
| M_Many_stop a p rest caps :
    Matches (Many a) p rest caps [] p rest caps
| M_Many_step a p c rest caps w p' rest' :
    atom_ok a c = true ->
    Matches (Many a) (Some c) rest caps w p' rest' caps ->
    Matches (Many a) p (c :: rest) caps (c :: w) p' rest' caps
| M_Many1 a p c rest caps w p' rest' :
    atom_ok a c = true ->
    Matches (Many a) (Some c) rest caps w p' rest' caps ->
    Matches (Many1 a) p (c :: rest) caps (c :: w) p' rest' caps
| M_Bol p rest caps :
    at_bol p = true -> Matches Bol p rest caps [] p rest caps
| M_Eol p rest caps :
    at_eol rest = true -> Matches Eol p rest caps [] p rest caps
| M_Eps p rest caps :
    Matches Eps p rest caps [] p rest caps
| M_Cat r1 r2 p rest caps w1 p1 rest1 caps1 w2 p2 rest2 caps2 :
    Matches r1 p rest caps w1 p1 rest1 caps1 ->
    Matches r2 p1 rest1 caps1 w2 p2 rest2 caps2 ->
    Matches (Cat r1 r2) p rest caps (w1 ++ w2) p2 rest2 caps2
| M_Alt_l r1 r2 p rest caps w p' rest' caps' :
    Matches r1 p rest caps w p' rest' caps' ->
    Matches (Alt r1 r2) p rest caps w p' rest' caps'
| M_Alt_r r1 r2 p rest caps w p' rest' caps' :
    Matches r2 p rest caps w p' rest' caps' ->
    Matches (Alt r1 r2) p rest caps w p' rest' caps'
| M_Grp n r p rest caps w p' rest' caps' :
    Matches r p rest caps w p' rest' caps' ->
    Matches (Grp n r) p rest caps w p' rest' ((n, w) :: caps')
| M_NotAhead r p rest caps :
    matcher r p rest caps (fun _ _ _ _ => Some tt) = None ->
    Matches (NotAhead r) p rest caps [] p rest caps.

(** A match consumes a prefix of the input, and the position it reaches
    has the last consumed unit before it. *)
Definition prev_after (p : option N) (w : list N) : option N :=
  match last w with Some c => Some c | None => p end.

(** A line that introduces the section [h]: heading markers, one space, the
    name, optional spaces, and the line feed. *)
Definition heading_line (h l : list N) : Prop :=
  exists n k, l = repeat 35 (S n) ++ [32] ++ h ++ repeat 32 k ++ [10].

(** The boundary that ends a section: the line feed and marker of the next
    heading, or nothing, at the end of the text (or before a LS or PS line
    separator). *)
Definition section_boundary (g2 rest' : list N) : Prop :=
  g2 = [10; 35] \/
  g2 = [] /\ (rest' = [] \/ exists c tl, rest' = c :: tl /\ (c = 8232 \/ c = 8233)).



(** The same, as a scan of the text: at some start of a line stand the
    heading markers, a space, the name, spaces and a line feed. *)
Fixpoint drop_run (x : N) (s : list N) : list N :=
  match s with
  | c :: s' => if c =? x then drop_run x s' else s
  | [] => []
  end.

Definition starts_heading_line (h s : list N) : bool :=
  match s with
  | c :: s' =>
      (c =? 35)
      && (let s1 := drop_run 35 s' in
          startsWith s1 (32 :: h)
          && startsWith (drop_run 32 (drop (S (length h)) s1)) [10])
  | [] => false
  end.


(** ** Tables *)

(** The order of the timestamps of two samples. *)
Definition index_le {V} (a b : list N * V) : Prop :=
  index_or_zero a.1 <= index_or_zero b.1.

(** One row of a rendered table. *)
Definition table_row `{Host} (cfg : HassConnectSettings) {V}
    (selector : V -> list N) (header : list N) (e : list N * V) : list N :=
  js "| " ++ renderTime cfg (Number_string e.1) ++ js " | "
    ++ padStart (selector e.2) (length header) ++ js " |\n".

(** ** Metadata writes *)

Section WriteVocabulary.
Context `{Host}.
Variable cfg : HassConnectSettings.

(** The path of the daily note of a date. *)
Definition daily_path (d : list N) : list N :=
  daily_note_folder ++ js "/" ++ moment_format d daily_note_format ++ js ".md".

(** The daily note of [d] is absent and will not be created: creation is
    switched off, or the storage refuses the path. *)
Definition blocked (s : State) (d : list N) : bool :=
  bool_decide (files s !! daily_path d = None)
  && (negb (create_daily_notes cfg) || bool_decide (daily_path d ∈ faulty s)).

(** What [dailyNoteFor] rejects with then. *)
Definition creation_error (d : list N) : exn :=
  if create_daily_notes cfg then StorageError (daily_path d)
  else Thrown (js "unable to create daily note!").

Definition set_field (f v : list N) (n : Note) : Note :=
  {| frontmatter := obj_set f v (frontmatter n); content := content n |}.

(** The vault after [frontmatter[f] = v] on the daily note of [d], created
    from the template when absent. *)
Definition write_field (f v d : list N) (m : gmap (list N) Note)
    : gmap (list N) Note :=
  <[daily_path d :=
      set_field f v (default (daily_note_template d) (m !! daily_path d))]> m.

(** [this.summary] after [storeToSummary(d, f, v)]. *)
Definition store (f v d : list N) (summ : list (list N * list (list N * list N)))
    : list (list N * list (list N * list N)) :=
  let summ' :=
    match obj_get d summ with
    | None => obj_set d [] summ
    | Some _ => summ
    end in
  obj_set d (obj_set f v (default [] (obj_get d summ'))) summ'.

(** The state after a successful [updateFrontMatter(d, f, v)]. *)
Definition field_effect (f v d : list N) (s : State) : State :=
  set_summary (store f v d) (set_files (write_field f v d) s).

(** The document of [d] holds [v] in its metadata field [f]. *)
Definition field_written (s : State) (d f v : list N) : Prop :=
  exists n, files s !! daily_path d = Some n
            /\ obj_get f (frontmatter n) = Some v.

(** The writes that a scalar projector attempts, in order: the dates it
    does not skip, each with its display value. *)
Definition scalar_writes {V} (selector : V -> list N)
    (l : list (list N * V)) : list (list N * list N) :=
  omap (fun '(d, e) =>
          if includes IGNORED_DATES d then None
          else if str_eqb (selector e) (js "undefined") then None
          else Some (d, selector e)) l.

(** A series of metadata writes to the field [f]: it stops at the first
    date whose document is [blocked]. *)
Fixpoint apply_writes (f : list N) (ws : list (list N * list N)) (s : State)
    : outcome unit * State :=
  match ws with
  | [] => (Ok tt, s)
  | (d, v) :: ws' =>
      if blocked s d then (Throw (creation_error d), s)
      else apply_writes f ws' (field_effect f v d s)
  end.

(** The state after a series of successful writes. *)
Definition effects (f : list N) (ws : list (list N * list N)) (s : State)
    : State :=
  fold_left (fun s '(d, v) => field_effect f v d s) ws s.

End WriteVocabulary.

(** ** Keyed stores

    The vault is a store keyed by path, [this.summary] a store keyed by
    date; a series of writes is a fold. *)




(** ** The scalar categories that are counted in whole units *)

Inductive scalar_category := Calories | Hydration | Steps.

Definition scalar_reading `{JSNumber} (c : scalar_category) : Type :=
  match c with
  | Calories => CaloriesDay
  | Hydration => HydrationDay
  | Steps => StepDay
  end.

Definition scalar_projector `{Host} (cfg : HassConnectSettings)
    (c : scalar_category)
    : option (list (list N * scalar_reading c)) -> M unit :=
  match c with
  | Calories => updateCalories cfg
  | Hydration => updateHydration cfg
  | Steps => updateSteps cfg
  end.

Definition scalar_field (cfg : HassConnectSettings) (c : scalar_category)
    : list N :=
  match c with
  | Calories => calorie_field cfg
  | Hydration => hydration_field cfg
  | Steps => steps_field cfg
  end.

(** The numeric field of a reading. *)
Definition scalar_quantity `{JSNumber} (c : scalar_category)
    : scalar_reading c -> number :=
  match c with
  | Calories => energy
  | Hydration => volume
  | Steps => count
  end.

(** The value that the code writes: the energy is rounded, the volume
    and the count are printed as they are. *)
Definition written_value `{JSNumber} (c : scalar_category)
    (e : scalar_reading c) : list N :=
  match c with
  | Calories => String_number (Math_round (scalar_quantity c e))
  | Hydration | Steps => String_number (scalar_quantity c e)
  end.

(** ** Collections *)

(** The collection without the property [k]. *)
Definition without_key {V} (k : list N) (o : list (list N * V))
    : list (list N * V) :=
  filter (fun e => e.1 <> k) o.

(** ** Runs *)

(** The awaited steps of [runSync] after a successful fetch, in order. *)
Definition stages `{Host} (cfg : HassConnectSettings) (sensorData : SensorData)
    : list (M unit) :=
  [updateCalories cfg (calories sensorData);
   updateExercise cfg (exercise sensorData);
   updateHeartrate cfg (heart sensorData);
   updateHydration cfg (hydration sensorData);
   updateBloodOxygen cfg (oxygen sensorData);
   updateSleep cfg (sleep sensorData);
   updateSteps cfg (steps sensorData);
   updateWeight cfg (weight sensorData);
   updateSummary cfg;
   Notice (js "Health Connect data sync'd.")].

(** The summary has an entry for the field [f] of the date [d]. *)
Definition summary_has (summ : list (list N * list (list N * list N)))
    (d f : list N) : Prop :=
  exists inner, obj_get d summ = Some inner /\ is_Some (obj_get f inner).

(** A computation that removes nothing from the summary. *)
Definition keeps_summary {A} (c : M A) : Prop :=
  forall s d f,
    summary_has (summary s) d f -> summary_has (summary (c s).2) d f.

(** ** Table notes *)

Section TableVocabulary.
Context `{Host}.
Variable cfg : HassConnectSettings.

(** The folder of the table notes of a date, when a tables subfolder is
    configured. *)
Definition table_folder (d : list N) : list N :=
  let parts := split_on 47 daily_note_format in
  daily_note_folder ++ js "/"
    ++ moment_format d
         (if (1 <? length parts)%nat then join (js "/") (removelast parts)
          else [])
    ++ js "/" ++ tables_subfolder cfg.

(** The path of the table note of a date. *)
Definition table_path (d : list N) : list N :=
  table_folder d ++ js "/"
    ++ moment_format d (default [] (last (split_on 47 daily_note_format)))
    ++ js " Tables.md".

(** The loop of a table projector over the dates of a collection. *)
Definition table_rewrites {V} (section : list N) (selector : V -> list N)
    (header slug : list N) (l : list (list N * list (list N * V))) : M unit :=
  for_each l (fun '(date, samples) =>
    replaceSection cfg date section
      (generateTableFromData cfg samples selector header slug) true).

End TableVocabulary.

(** ** What a computation leaves standing *)

(** Every state that [c] can leave is related by [R] to the state it
    started from. *)
Definition respects {A} (R : State -> State -> Prop) (c : M A) : Prop :=
  forall s, R s (c s).2.

(** No note is deleted and no metadata field of a note is removed. *)
Definition notes_kept (s s' : State) : Prop :=
  forall p n, files s !! p = Some n ->
    exists n', files s' !! p = Some n' /\
      forall f, is_Some (obj_get f (frontmatter n)) ->
                is_Some (obj_get f (frontmatter n')).

(** No note is deleted and the text of every note is as it was. *)
Definition text_kept (s s' : State) : Prop :=
  forall p n, files s !! p = Some n ->
    exists n', files s' !! p = Some n' /\ content n' = content n.

(** No note is deleted, the metadata of every note is as it was, and so is
    the summary. *)
Definition metadata_kept (s s' : State) : Prop :=
  summary s' = summary s /\
  forall p n, files s !! p = Some n ->
    exists n', files s' !! p = Some n' /\ frontmatter n' = frontmatter n.



(** [this.summary[d][f]] *)
Definition summary_value (summ : list (list N * list (list N * list N)))
    (d f : list N) : option (list N) :=
  obj_get d summ ≫= obj_get f.


(** A night without the stages that are not counted as sleep. *)
Definition counted_stages `{JSNumber} (day : SleepDay) : SleepDay :=
  {| sleep_start := sleep_start day;
     sleep_end := sleep_end day;
     stage := filter
                (fun st => includes UNCOUNTED_SLEEP_STAGES (stageFormat st)
                           = false)
                (stage day) |}.

(** The same change to every value of a collection. *)
Definition map_values {V W} (g : V -> W) (o : list (list N * V))
    : list (list N * W) :=
  map (fun e => (e.1, g e.2)) o.

(** No line that starts within [pre] introduces the section [h] in the
    text [pre ++ tail]; [prev] is the code unit before [pre]. *)
Fixpoint no_heading_within (h : list N) (prev : option N)
    (pre tail : list N) : bool :=
  match pre with
  | [] => true
  | c :: pre' =>
      negb (at_bol prev && starts_heading_line h (pre ++ tail))
      && no_heading_within h (Some c) pre' tail
  end.

(** The captures of a match of the section pattern with the heading line
    [g1] and the boundary [g2]. *)
Definition section_captures (g1 g2 : list N) : list (nat * list N) :=
  match g2 with
  | [] => [(2%nat, []); (4%nat, []); (1%nat, g1)]
  | _ => [(2%nat, g2); (3%nat, g2); (1%nat, g1)]
  end.

(** The end of a section that the pattern finds by itself: the line feed
    and marker of the next heading, or the end of the text. *)
Definition section_end (g2 post : list N) : Prop :=
  g2 = [10; 35] \/ g2 = [] /\ post = [].

(** A text without [#] and without [$]: as the body of a section it
    neither ends the section early nor is read as a replacement pattern. *)
Definition section_safe (s : list N) : Prop :=
  Forall (fun c => c <> 35 /\ c <> 36) s.

(** * Example snapshots *)

(** The heart-rate samples [{100: {bpm: 60, time: 100},
    200: {bpm: 65, time: 200}}]. *)
Definition example_heart_day : list (list N * @HeartRateReading QNumber) :=
  [(js "100", {| bpm := QNum 60; time := QNum 100 |});
   (js "200", {| bpm := QNum 65; time := QNum 200 |})].

(** The same samples with the members in the other order in the JSON text. *)
Definition example_heart_day_swapped
    : list (list N * @HeartRateReading QNumber) :=
  [(js "200", {| bpm := QNum 65; time := QNum 200 |});
   (js "100", {| bpm := QNum 60; time := QNum 100 |})].

(** A day on which 250.5 mL were drunk. *)
Definition example_hydration_day : @HydrationDay QNumber :=
  {| volume := QNum (501 # 2); hyd_format := js "mL";
     hyd_startTime := QNum 1705708800; hyd_endTime := QNum 1705795199 |}.

Definition example_hydration : list (list N * @HydrationDay QNumber) :=
  [(js "2024-01-20", example_hydration_day)].

(** An exercise collection that carries the sentinel key. *)
Definition example_exercise_sentinel
    : list (list N * @ExerciseDay QNumber) :=
  [(js "lastSleep",
    {| sessions := []; totalSessions := QNum 0; totalDuration := QNum 1800;
       totalDurationFormatted := js "30m" |})].

(** A heart-rate collection that carries the sentinel key. *)
Definition example_heart_sentinel
    : list (list N * list (list N * @HeartRateReading QNumber)) :=
  [(js "lastSleep", example_heart_day)].

Definition example_calories_day (kcal : Z) : @CaloriesDay QNumber :=
  {| energy := QNum (inject_Z kcal); cal_format := js "kcal";
     cal_startTime := QNum 0; cal_endTime := QNum 0 |}.

Definition example_steps_day (n : Z) : @StepDay QNumber :=
  {| count := QNum (inject_Z n); step_start := QNum 0; step_end := QNum 0 |}.

(** A snapshot with calories and steps for 2024-01-21. *)
Definition example_second_day : @Response QNumber :=
  {| status := 200;
     attributes :=
       {| calories := Some [(js "2024-01-21", example_calories_day 200)];
          exercise := None; heart := None; hydration := None; oxygen := None;
          sleep := None;
          steps := Some [(js "2024-01-21", example_steps_day 5000)];
          weight := None |} |}.

(** A snapshot with calories for 2024-01-20. *)
Definition example_first_day : @Response QNumber :=
  {| status := 200;
     attributes :=
       {| calories := Some [(js "2024-01-20", example_calories_day 100)];
          exercise := None; heart := None; hydration := None; oxygen := None;
          sleep := None; steps := None; weight := None |} |}.

(** Heart-rate samples for two days. *)
Definition example_heart_two_days : @Response QNumber :=
  {| status := 200;
     attributes :=
       {| calories := None; exercise := None;
          heart := Some [(js "2024-01-20", example_heart_day);
                         (js "2024-01-21", example_heart_day)];
          hydration := None; oxygen := None; sleep := None; steps := None;
          weight := None |} |}.

(** The same snapshot without the first day. *)
Definition example_heart_second_day : @Response QNumber :=
  {| status := 200;
     attributes :=
       {| calories := None; exercise := None;
          heart := Some [(js "2024-01-21", example_heart_day)];
          hydration := None; oxygen := None; sleep := None; steps := None;
          weight := None |} |}.

(** A vault with the tables folder of 2024 and no notes, whose storage
    refuses the table note of 2024-01-20. *)
Definition example_faulty_state : State :=
  {| files := ∅; folders := {[ js "Daily/2024/tables" ]};
     faulty := {[ js "Daily/2024/tables/2024-01-20 Tables.md" ]};
     summary := []; notices := [] |}.

(** A state in which an earlier run has recorded the calories of
    2024-01-20. *)
Definition example_after_first_run : State :=
  {| files := {[ js "Daily/2024/2024-01-20.md" :=
                   {| frontmatter := [(js "Active Calories", js "100")];
                      content := [] |} ]};
     folders := ∅; faulty := ∅;
     summary := [(js "2024-01-20", [(js "Active Calories", js "100")])];
     notices := [js "Health Connect data sync'd."] |}.

(** A vault with the daily note of 2024-01-20, which has an exercise
    section followed by a notes section. *)
Definition example_note_state : State :=
  {| files := {[ js "Daily/2024/2024-01-20.md" :=
                   {| frontmatter := [];
                      content := js "# Oefening\nold\n# Notes\nkeep\n" |} ]};
     folders := ∅; faulty := ∅; summary := []; notices := [] |}.

(** An exercise day with one session whose name has two dollar signs. *)
Definition example_exercise_dollars
    : list (list N * @ExerciseDay QNumber) :=
  [(js "2024-01-20",
    {| sessions :=
         [{| duration := QNum 1800; durationFormatted := js "30m";
             endTime := QNum 1705712400; exerciseName := js "Fun $$ run";
             exerciseType := js "56"; notes := None;
             startTime := QNum 1705710600; title := None |}];
       totalSessions := QNum 1; totalDuration := QNum 1800;
       totalDurationFormatted := js "30m" |})].

(** A transport failure. *)
Definition example_server_error : @Response QNumber :=
  {| status := 500;
     attributes :=
       {| calories := Some [(js "2024-01-20", example_calories_day 100)];
          exercise := None; heart := None; hydration := None; oxygen := None;
          sleep := None; steps := None; weight := None |} |}.

(** The default settings with another server, tables subfolder and
    creation switch. *)
Definition example_settings (uri sns sub : list N) (create : bool)
    : HassConnectSettings :=
  let c := DEFAULT_SETTINGS in
  {| token := token c;
     instance_uri := uri;
     sensor := sns;
     refresh_interval := refresh_interval c;
     create_daily_notes := create;
     format_times := format_times c;
     tables_subfolder := sub;
     calorie_field := calorie_field c;
     exercise_field := exercise_field c;
     hydration_field := hydration_field c;
     steps_field := steps_field c;
     weight_field := weight_field c;
     total_sleep_field := total_sleep_field c;
     heartrate_section := heartrate_section c;
     blood_oxygen_section := blood_oxygen_section c;
     exercise_list_section := exercise_list_section c;
     summary_section := summary_section c |}.

Definition example_settings_short : HassConnectSettings :=
  example_settings (js "http://ha.local:8123") (js "health_connect")
    (js "tables") true.

Definition example_settings_long : HassConnectSettings :=
  example_settings (js "http://ha.local:8123/") (js "sensor.health_connect")
    (js "tables") true.

Definition example_settings_inline : HassConnectSettings :=
  example_settings [] (js "health_connect") [] true.

Definition example_settings_no_create : HassConnectSettings :=
  example_settings [] (js "health_connect") (js "tables") false.


(** Two weighings of a day, the later one first in the snapshot, and a day
    without any. *)
Definition example_weight_day : list (list N * @number QNumber) :=
  [(js "200", QNum (81 # 1)); (js "100", QNum (80 # 1))].

Definition example_weight
    : list (list N * list (list N * @number QNumber)) :=
  [(js "2024-01-20", example_weight_day)].


(** * Properties *)


(** ** The matcher only returns matches *)

Lemma many_sound {R} a rest : forall p caps
    (k : list N -> option N -> list N -> option R) res,
  many a p rest k = Some res ->
  exists w p' rest',
    Matches (Many a) p rest caps w p' rest' caps /\ k w p' rest' = Some res.
Proof.
  induction rest as [|c rest IH]; intros p caps k res Hm; simpl in Hm.
  - exists [], p, []. split; [constructor | exact Hm].
  - destruct (atom_ok a c) eqn:Hc.
    + destruct (many a (Some c) rest _) as [res'|] eqn:Hrec.
      * injection Hm as <-.
        destruct (IH _ caps _ _ Hrec) as (w & p' & rest' & HM & Hk).
        exists (c :: w), p', rest'. split; [by constructor | exact Hk].
      * exists [], p, (c :: rest). split; [constructor | exact Hm].
    + exists [], p, (c :: rest). split; [constructor | exact Hm].
Qed.

Lemma matcher_sound r : forall {R} p rest caps
    (k : list N -> option N -> list N -> list (nat * list N) -> option R) res,
  matcher r p rest caps k = Some res ->
  exists w p' rest' caps',
    Matches r p rest caps w p' rest' caps' /\ k w p' rest' caps' = Some res.
Proof.
  induction r as [a|a|a| | | |r1 IH1 r2 IH2|r1 IH1 r2 IH2|n r1 IH1|r1 IH1];
    intros R p rest caps k res Hm; simpl in Hm.
  - destruct rest as [|c rest]; [discriminate|].
    destruct (atom_ok a c) eqn:Hc; [|discriminate].
    eexists _, _, _, _. split; [by constructor | exact Hm].
  - destruct (many_sound _ _ _ caps _ _ Hm) as (w & p' & rest' & HM & Hk).
    by eexists _, _, _, _.
  - destruct rest as [|c rest]; [discriminate|].
    destruct (atom_ok a c) eqn:Hc; [|discriminate].
    destruct (many_sound _ _ _ caps _ _ Hm) as (w & p' & rest' & HM & Hk).
    eexists _, _, _, _. split; [by constructor | exact Hk].
  - destruct (at_bol p) eqn:Hb; [|discriminate].
    eexists _, _, _, _. split; [by constructor | exact Hm].
  - destruct (at_eol rest) eqn:Hb; [|discriminate].
    eexists _, _, _, _. split; [by constructor | exact Hm].
  - eexists _, _, _, _. split; [constructor | exact Hm].
  - destruct (IH1 _ _ _ _ _ _ Hm) as (w1 & p1 & rest1 & caps1 & HM1 & Hk1).
    destruct (IH2 _ _ _ _ _ _ Hk1) as (w2 & p2 & rest2 & caps2 & HM2 & Hk2).
    eexists _, _, _, _. split; [by econstructor | exact Hk2].
  - destruct (matcher r1 p rest caps k) as [res'|] eqn:H1.
    + injection Hm as <-.
      destruct (IH1 _ _ _ _ _ _ H1) as (w & p' & rest' & caps' & HM & Hk).
      eexists _, _, _, _. split; [by apply M_Alt_l | exact Hk].
    + destruct (IH2 _ _ _ _ _ _ Hm) as (w & p' & rest' & caps' & HM & Hk).
      eexists _, _, _, _. split; [by apply M_Alt_r | exact Hk].
  - destruct (IH1 _ _ _ _ _ _ Hm) as (w & p' & rest' & caps' & HM & Hk).
    eexists _, _, _, _. split; [by constructor | exact Hk].
  - destruct (matcher r1 p rest caps (fun _ _ _ _ => Some tt)) eqn:H1;
      [discriminate|].
    eexists _, _, _, _. split; [by constructor | exact Hm].
Qed.

Lemma Matches_split r p rest caps w p' rest' caps' :
  Matches r p rest caps w p' rest' caps' ->
  rest = w ++ rest' /\ p' = prev_after p w.
Proof.
  induction 1; simpl; try (split; reflexivity).
  - destruct IHMatches as [-> ->]. split; [reflexivity|].
    unfold prev_after. rewrite last_cons. by destruct (last w).
  - destruct IHMatches as [-> ->]. split; [reflexivity|].
    unfold prev_after. rewrite last_cons. by destruct (last w).
  - destruct IHMatches1 as [-> ->], IHMatches2 as [-> ->].
    split; [by rewrite app_assoc|].
    unfold prev_after. rewrite last_app. by destruct (last w2).
  - exact IHMatches.
  - exact IHMatches.
  - exact IHMatches.
Qed.

Lemma exec_from_sound re rest : forall before_rev prev res,
  prev = head before_rev ->
  exec_from re before_rev prev rest = Some res ->
  exists pre p',
    rest = pre ++ m_matched res ++ m_after res /\
    m_before res = reverse before_rev ++ pre /\
    Matches re (last (m_before res)) (m_matched res ++ m_after res) []
      (m_matched res) p' (m_after res) (m_captures res).
Proof.
  induction rest as [|c rest IH]; intros before_rev prev res Hprev He;
    simpl in He.
  - destruct (matcher re prev [] [] _) as [res'|] eqn:Hm; [|discriminate].
    injection He as <-.
    apply matcher_sound in Hm as (w & p' & rest' & caps' & HM & [= <-]).
    simpl. destruct (Matches_split _ _ _ _ _ _ _ _ HM) as [Hs _].
    exists [], p'. rewrite app_nil_r, last_reverse, <- Hprev, <- Hs.
    repeat split. exact HM.
  - destruct (matcher re prev (c :: rest) [] _) as [res'|] eqn:Hm.
    + injection He as <-.
      apply matcher_sound in Hm as (w & p' & rest' & caps' & HM & [= <-]).
      simpl. destruct (Matches_split _ _ _ _ _ _ _ _ HM) as [Hs _].
      exists [], p'. rewrite app_nil_r, last_reverse, <- Hprev, <- Hs.
      repeat split. exact HM.
    + destruct (IH (c :: before_rev) (Some c) res eq_refl He)
        as (pre & p' & Hs & Hb & HM).
      exists (c :: pre), p'. rewrite reverse_cons, <- app_assoc in Hb.
      repeat split; [by rewrite Hs | exact Hb | exact HM].
Qed.

Lemma RegExp_exec_sound re s res :
  RegExp_exec re s = Some res ->
  s = m_before res ++ m_matched res ++ m_after res /\
  exists p',
    Matches re (last (m_before res)) (m_matched res ++ m_after res) []
      (m_matched res) p' (m_after res) (m_captures res).
Proof.
  intros He. apply exec_from_sound with (prev := None) in He; [|reflexivity].
  destruct He as (pre & p' & Hs & Hb & HM). simpl in Hb. subst pre.
  split; [exact Hs | by exists p'].
Qed.

(** ** What a match of the section pattern looks like *)

Lemma Matches_Many a p rest caps w p' rest' caps' :
  Matches (Many a) p rest caps w p' rest' caps' ->
  Forall (fun c => atom_ok a c = true) w /\ caps' = caps.
Proof.
  remember (Many a) as r eqn:Hr. induction 1; try discriminate.
  - by split.
  - injection Hr as ->. destruct (IHMatches eq_refl) as [HF _].
    split; [by constructor | reflexivity].
Qed.

Lemma Matches_Lit h : forall p rest caps w p' rest' caps',
  Matches (Lit h) p rest caps w p' rest' caps' -> w = h /\ caps' = caps.
Proof.
  induction h as [|c h IH]; intros p rest caps w p' rest' caps' HM; simpl in HM.
  - by inv HM.
  - inv HM. match goal with H : Matches (One _) _ _ _ _ _ _ _ |- _ => inv H end.
    match goal with H : Matches (Lit _) _ _ _ _ _ _ _ |- _ =>
      apply IH in H as [-> ->] end.
    match goal with H : atom_ok _ _ = true |- _ =>
      simpl in H; apply N.eqb_eq in H as -> end.
    by split.
Qed.

Lemma Forall_eq_repeat (x : N) (w : list N) :
  Forall (fun c => (c =? x) = true) w -> w = repeat x (length w).
Proof.
  induction 1 as [|c w Hc _ IH]; [reflexivity|].
  apply N.eqb_eq in Hc as ->. simpl. by rewrite <- IH.
Qed.

Lemma section_regex_Matches h p rest w p' rest' caps :
  Matches (section_regex h) p rest [] w p' rest' caps ->
  exists g1 old g2,
    at_bol p = true /\ heading_line h g1 /\
    w = g1 ++ old ++ g2 /\
    Forall (fun c => c <> 35) old /\
    section_boundary g2 rest' /\
    capture caps 1 = g1 /\ capture caps 2 = g2.
Proof.
  unfold section_regex. intros HM.
  inv HM.
  match goal with H : Matches (Grp 1 _) _ _ _ _ _ _ _ |- _ => inv H end.
  match goal with H : Matches (Cat Bol _) _ _ _ _ _ _ _ |- _ => inv H end.
  match goal with H : Matches Bol _ _ _ _ _ _ _ |- _ => inv H end.
  match goal with H : Matches (Cat (Many1 _) _) _ _ _ _ _ _ _ |- _ => inv H end.
  match goal with H : Matches (Many1 _) _ _ _ _ _ _ _ |- _ => inv H end.
  match goal with H : Matches (Many (Chr 35)) _ _ _ _ _ _ _ |- _ =>
    apply Matches_Many in H as [Hhash _] end.
  match goal with H : Matches (Cat (One _) _) _ _ _ _ _ _ _ |- _ => inv H end.
  match goal with H : Matches (One (Chr 32)) _ _ _ _ _ _ _ |- _ => inv H end.
  match goal with H : Matches (Cat (Lit _) _) _ _ _ _ _ _ _ |- _ => inv H end.
  match goal with H : Matches (Lit _) _ _ _ _ _ _ _ |- _ =>
    apply Matches_Lit in H as [-> ->] end.
  match goal with H : Matches (Cat (Many _) _) _ _ _ _ _ _ _ |- _ => inv H end.
  match goal with H : Matches (Many (Cls _)) _ _ _ _ _ _ _ |- _ =>
    apply Matches_Many in H as [Hsp ->] end.
  match goal with H : Matches (One (Chr 10)) _ _ _ _ _ _ _ |- _ => inv H end.
  match goal with H : Matches (Cat (Many (NCls _)) _) _ _ _ _ _ _ _ |- _ =>
    inv H end.
  match goal with H : Matches (Many (NCls _)) _ _ _ _ _ _ _ |- _ =>
    apply Matches_Many in H as [Hold ->] end.
  repeat match goal with H : atom_ok (Chr _) _ = true |- _ =>
    simpl in H; apply N.eqb_eq in H; subst end.
  match goal with H : Matches (Grp 2 _) _ _ _ _ _ _ _ |- _ => inv H end.
  eexists _, _, _. split; [eassumption|]. split.
  { apply Forall_eq_repeat in Hhash.
    match type of Hhash with ?hs = _ => set (hashes := hs) in * end.
    match type of Hsp with Forall _ ?sp => set (spaces := sp) in * end.
    assert (Hsp' : Forall (fun c => (c =? 32) = true) spaces).
    { eapply Forall_impl; [exact Hsp|]. simpl. intros c Hc.
      by rewrite orb_false_r in Hc. }
    apply Forall_eq_repeat in Hsp'.
    exists (length hashes), (length spaces). simpl.
    rewrite <- Hhash, <- Hsp'. reflexivity. }
  split; [reflexivity|]. split.
  { eapply Forall_impl; [exact Hold|]. simpl. intros c Hc ->. discriminate. }
  match goal with H : Matches (Alt _ _) _ _ _ _ _ _ _ |- _ => inv H end.
  - match goal with H : Matches (Grp 3 _) _ _ _ _ _ _ _ |- _ => inv H end.
    match goal with H : Matches (Cat _ _) _ _ _ _ _ _ _ |- _ => inv H end.
    repeat match goal with H : Matches (One _) _ _ _ _ _ _ _ |- _ => inv H end.
    repeat match goal with H : atom_ok (Chr _) _ = true |- _ =>
      simpl in H; apply N.eqb_eq in H; subst end.
    split; [by left|]. by split.
  - match goal with H : Matches (Grp 4 _) _ _ _ _ _ _ _ |- _ => inv H end.
    match goal with H : Matches (Cat _ _) _ _ _ _ _ _ _ |- _ => inv H end.
    match goal with H : Matches Eol _ _ _ _ _ _ _ |- _ => inv H end.
    match goal with H : Matches (NotAhead _) _ _ _ _ _ _ _ |- _ => inv H end.
    split; [|by split].
    right. split; [reflexivity|].
    destruct rest' as [|c tl]; [by left|right].
    exists c, tl. split; [reflexivity|].
    match goal with H : at_eol _ = true |- _ => simpl in H; rename H into He end.
    match goal with H : matcher _ _ _ _ _ = None |- _ =>
      simpl in H; rename H into Hn end.
    unfold LineTerminator in He.
    destruct (c =? 13) eqn:E13; [discriminate|].
    destruct (c =? 10) eqn:E10; [discriminate|].
    simpl in He. rewrite orb_true_iff in He.
    destruct He as [?%N.eqb_eq|?%N.eqb_eq]; auto.
Qed.

(** ** Strings and replacement templates *)

Lemma startsWith_app s p : startsWith (p ++ s) p = true.
Proof. induction p as [|c p IH]; simpl; [done|]. by rewrite N.eqb_refl. Qed.

Lemma startsWith_split s p :
  startsWith s p = true -> s = p ++ drop (length p) s.
Proof.
  revert s. induction p as [|c p IH]; intros [|d s] Hs; simpl in *; try done.
  apply andb_true_iff in Hs as [->%N.eqb_eq Hs]. f_equal. by apply IH.
Qed.

Lemma find_sub_split needle hay pre post :
  find_sub needle hay = Some (pre, post) -> hay = pre ++ needle ++ post.
Proof.
  revert pre. induction hay as [|c hay IH]; intros pre Hf; simpl in Hf.
  - destruct (startsWith [] needle) eqn:Hs; [|discriminate].
    injection Hf as <- <-. by apply startsWith_split in Hs.
  - destruct (startsWith (c :: hay) needle) eqn:Hs.
    + injection Hf as <- <-. by apply startsWith_split in Hs.
    + destruct (find_sub needle hay) as [[pre' post']|] eqn:Hr; [|discriminate].
      injection Hf as <- <-. simpl. f_equal. by apply IH.
Qed.

(** The escaping step of [replaceSection] leaves every body as it is: the
    first [$] is replaced by the expansion of [$$], which is [$]. *)
Lemma escape_is_identity body :
  String_replace_string body (js "$") (js "$$") = body.
Proof.
  unfold String_replace_string.
  destruct (find_sub (js "$") body) as [[pre post]|] eqn:Hf; [|reflexivity].
  apply find_sub_split in Hf. by rewrite Hf.
Qed.

Lemma GetSubstitution_plain_app m b a ncap caps t u :
  Forall (fun c => c <> 36) t ->
  GetSubstitution m b a ncap caps (t ++ u)
  = t ++ GetSubstitution m b a ncap caps u.
Proof.
  induction 1 as [|c t Hc _ IH]; [reflexivity|].
  simpl. apply N.eqb_neq in Hc as ->. simpl. by rewrite IH.
Qed.

Lemma GetSubstitution_group1 m b a caps t :
  GetSubstitution m b a 4 caps (36 :: 49 :: t)
  = capture caps 1 ++ GetSubstitution m b a 4 caps t.
Proof.
  destruct t as [|d2 t2]; [reflexivity|].
  cbn -[capture]. by rewrite andb_false_r.
Qed.

Lemma section_template_plain m b a caps body :
  Forall (fun c => c <> 36) body ->
  GetSubstitution m b a 4 caps (js "$1" ++ body ++ js "$2")
  = capture caps 1 ++ body ++ capture caps 2.
Proof.
  intros Hb. change (js "$1" ++ body ++ js "$2")
    with (36 :: 49 :: (body ++ [36; 50])).
  rewrite GetSubstitution_group1, GetSubstitution_plain_app by done.
  cbn -[capture]. by rewrite app_nil_r.
Qed.

(** ** The scan for a heading line is complete *)

Lemma drop_run_repeat x n c s :
  c <> x -> drop_run x (repeat x n ++ c :: s) = c :: s.
Proof.
  intros Hc. induction n as [|n IH]; simpl.
  - by apply N.eqb_neq in Hc as ->.
  - by rewrite N.eqb_refl.
Qed.

Lemma starts_heading_line_intro h l post :
  heading_line h l -> starts_heading_line h (l ++ post) = true.
Proof.
  intros (n & k & ->). simpl. rewrite <- !app_assoc. simpl.
  rewrite drop_run_repeat by done. simpl.
  rewrite <- app_assoc, startsWith_app, drop_app_length. simpl.
  rewrite <- app_assoc. simpl.
  rewrite drop_run_repeat by done. reflexivity.
Qed.




(** ** Rewriting a section: the pure part *)

Lemma Lit_groups h : group_count (Lit h) = 0%nat.
Proof. induction h as [|c h IH]; simpl; [done | exact IH]. Qed.

(** The section pattern has four capture groups, whatever the heading. *)
Lemma section_regex_groups h : group_count (section_regex h) = 4%nat.
Proof. unfold section_regex. simpl. by rewrite Lit_groups. Qed.


(** For a body without [$], a rewrite keeps everything around the old
    body of the section: what precedes the heading line, the heading line,
    the boundary and what follows it. *)
Lemma replaceSection_content_frame h body text res :
  Forall (fun c => c <> 36) body ->
  RegExp_exec (section_regex h) text = Some res ->
  exists pre g1 old g2 post,
    text = pre ++ g1 ++ old ++ g2 ++ post /\
    replaceSection_content h body text = pre ++ g1 ++ body ++ g2 ++ post /\
    at_bol (last pre) = true /\ heading_line h g1 /\
    Forall (fun c => c <> 35) old /\ section_boundary g2 post.
Proof.
  intros Hbody He.
  unfold replaceSection_content, String_replace_regex.
  rewrite escape_is_identity, He.
  apply RegExp_exec_sound in He as (Hs & p' & HM).
  apply section_regex_Matches in HM
    as (g1 & old & g2 & Hb & Hl & Hw & Hold & Hbd & Hc1 & Hc2).
  exists (m_before res), g1, old, g2, (m_after res).
  split; [by rewrite Hs, Hw, <- !app_assoc|].
  split; [|done].
  rewrite section_regex_groups, section_template_plain, Hc1, Hc2 by done.
  by rewrite <- !app_assoc.
Qed.

(** ** The sensor URL *)



(** ** Objects and their iteration order *)

Lemma insert_by_index_perm {V} (e : list N * V) l :
  Permutation (insert_by_index e l) (e :: l).
Proof.
  induction l as [|x l IH]; simpl; [done|].
  destruct (_ <? _); [done|]. rewrite IH. apply perm_swap.
Qed.

Lemma sort_by_index_perm {V} (l : list (list N * V)) :
  Permutation (sort_by_index l) l.
Proof.
  induction l as [|x l IH]; simpl; [done|].
  rewrite insert_by_index_perm. by constructor.
Qed.

Lemma insert_by_index_sorted {V} (e : list N * V) l :
  StronglySorted index_le l -> StronglySorted index_le (insert_by_index e l).
Proof.
  induction 1 as [|x l Hs IH Hx]; simpl; [repeat constructor|].
  destruct (index_or_zero e.1 <? index_or_zero x.1) eqn:Hlt.
  - apply N.ltb_lt in Hlt. constructor; [by constructor|].
    constructor; [unfold index_le; lia|].
    eapply Forall_impl; [exact Hx|]. unfold index_le. intros; simpl in *. lia.
  - apply N.ltb_ge in Hlt. constructor; [exact IH|].
    rewrite insert_by_index_perm. by constructor.
Qed.

Lemma sort_by_index_sorted {V} (l : list (list N * V)) :
  StronglySorted index_le (sort_by_index l).
Proof.
  induction l as [|x l IH]; simpl; [constructor|].
  by apply insert_by_index_sorted.
Qed.

Lemma filter_all {A} (P : A -> Prop) `{!forall x, Decision (P x)} (l : list A) :
  Forall P l -> filter P l = l.
Proof.
  induction 1 as [|x l Hx _ IH]; [done|].
  rewrite filter_cons_True by done. by rewrite IH.
Qed.

Lemma filter_none {A} (P : A -> Prop) `{!forall x, Decision (P x)} (l : list A) :
  Forall (fun x => ~ P x) l -> filter P l = [].
Proof.
  induction 1 as [|x l Hx _ IH]; [done|].
  by rewrite filter_cons_False.
Qed.

(** With array-index keys only, iteration is in ascending key order. *)
Lemma for_in_indices {V} (o : list (list N * V)) :
  Forall (fun e => is_Some (array_index e.1)) o ->
  for_in o = sort_by_index o.
Proof.
  intros Ho. unfold for_in.
  rewrite filter_all by done. rewrite filter_none; [by rewrite app_nil_r|].
  eapply Forall_impl; [exact Ho|]. intros e [n Hn] He. simpl in *. congruence.
Qed.

(** ** The rendered table *)

Lemma fold_left_append {A} (f : A -> list N) (l : list A) (init : list N) :
  fold_left (fun acc x => acc ++ f x) l init = init ++ concat (map f l).
Proof.
  revert init. induction l as [|x l IH]; intros init; simpl.
  - by rewrite app_nil_r.
  - by rewrite IH, <- app_assoc.
Qed.

Lemma fold_left_pointwise {A B} (f g : A -> B -> A) (l : list B) (a : A) :
  (forall a b, f a b = g a b) -> fold_left f l a = fold_left g l a.
Proof.
  intros Hfg. revert a. induction l as [|x l IH]; intros a; simpl; [done|].
  by rewrite Hfg, IH.
Qed.

Lemma generateTableFromData_unfold `{Host} cfg {V} (readings : list (list N * V))
    selector header slug :
  generateTableFromData cfg readings selector header slug
  = js "\n| Time     | " ++ header ++ js " |\n" ++ js "|----------|-"
      ++ str_repeat (js "-") (length header) ++ js "-|\n"
      ++ concat (map (table_row cfg selector header) (for_in readings))
      ++ js "^" ++ slug ++ js "\n\n".
Proof.
  unfold generateTableFromData.
  erewrite (fold_left_pointwise _
              (fun acc x => acc ++ table_row cfg selector header x)).
  2:{ intros acc [time sample]. reflexivity. }
  rewrite fold_left_append. by rewrite <- !app_assoc.
Qed.



(** The table of the two samples on the reference host: two rows, the
    earlier sample first, then the anchor; the order of the members in the
    JSON text does not matter. *)
Lemma heart_rate_table_example :
  generateTableFromData DEFAULT_SETTINGS example_heart_day
    (fun e => String_number (bpm e)) (js "BPM") (js "heartrate")
  = js "\n| Time     | BPM |\n|----------|-----|\n| 1970-01-01 00:01:40 |  60 |\n| 1970-01-01 00:03:20 |  65 |\n^heartrate\n\n"
  /\ generateTableFromData DEFAULT_SETTINGS example_heart_day_swapped
       (fun e => String_number (bpm e)) (js "BPM") (js "heartrate")
     = generateTableFromData DEFAULT_SETTINGS example_heart_day
         (fun e => String_number (bpm e)) (js "BPM") (js "heartrate").
Proof. split; vm_compute; reflexivity. Qed.

(** ** Reading and writing properties *)

Lemma obj_get_set_eq {V} k (v : V) o : obj_get k (obj_set k v o) = Some v.
Proof.
  induction o as [|[k' v'] o IH]; simpl; unfold str_eqb.
  - by rewrite bool_decide_eq_true_2.
  - case_bool_decide as Hk; simpl; unfold str_eqb.
    + by rewrite bool_decide_eq_true_2.
    + by rewrite bool_decide_eq_false_2.
Qed.

Lemma obj_get_set_ne {V} k k' (v : V) o :
  k <> k' -> obj_get k' (obj_set k v o) = obj_get k' o.
Proof.
  intros Hne. induction o as [|[x y] o IH]; simpl; unfold str_eqb.
  - by rewrite bool_decide_eq_false_2.
  - case_bool_decide as Hk; simpl; unfold str_eqb.
    + subst x. by rewrite !bool_decide_eq_false_2.
    + case_bool_decide; [done | exact IH].
Qed.

Lemma obj_set_twice {V} k (a b : V) o :
  obj_set k b (obj_set k a o) = obj_set k b o.
Proof.
  induction o as [|[x y] o IH]; simpl; unfold str_eqb.
  - by rewrite bool_decide_eq_true_2.
  - case_bool_decide as Hk; simpl; unfold str_eqb.
    + by rewrite bool_decide_eq_true_2.
    + rewrite bool_decide_eq_false_2 by done. by rewrite IH.
Qed.


Lemma obj_get_Some_set {V} k (v : V) o :
  obj_get k o = Some v -> obj_set k v o = o.
Proof.
  induction o as [|[x y] o IH]; simpl; unfold str_eqb; [done|].
  case_bool_decide as Hk.
  - intros [= ->]. by subst.
  - intros Hg. by rewrite IH.
Qed.

(** ** What a metadata write does *)

Section Effects.
Context `{Host}.
Variable cfg : HassConnectSettings.

Lemma dailyNotePathFor_plain d s :
  dailyNotePathFor cfg d false s = (Ok (daily_path d), s).
Proof. reflexivity. Qed.

(** Locating the daily note of a date: it is there, or it is created from
    the template, or the call rejects. *)
Lemma dailyNoteFor_plain d s :
  dailyNoteFor cfg d false s =
    match files s !! daily_path d with
    | Some _ => (Ok (daily_path d), s)
    | None =>
        if blocked cfg s d then (Throw (creation_error cfg d), s)
        else (Ok (daily_path d),
              set_files (insert (daily_path d) (daily_note_template d)) s)
    end.
Proof.
  unfold dailyNoteFor, bind. rewrite dailyNotePathFor_plain.
  unfold vault_getFileByPath, blocked, creation_error.
  destruct (files s !! daily_path d) as [n|] eqn:Hf; [reflexivity|].
  rewrite bool_decide_eq_true_2 by done. simpl.
  destruct (create_daily_notes cfg); simpl; [|reflexivity].
  unfold createDailyNote, vault_create, bind. fold (daily_path d).
  destruct (bool_decide (daily_path d ∈ faulty s)); [reflexivity|].
  by rewrite Hf.
Qed.

Lemma updateFrontMatter_spec d f v s :
  updateFrontMatter cfg d f v s =
    if blocked cfg s d then (Throw (creation_error cfg d), s)
    else (Ok tt, field_effect f v d s).
Proof.
  unfold updateFrontMatter, bind. rewrite dailyNoteFor_plain.
  unfold blocked, field_effect, write_field.
  destruct (files s !! daily_path d) as [n|] eqn:Hf.
  - rewrite bool_decide_eq_false_2 by congruence. simpl.
    unfold unawaited, processFrontMatter. rewrite Hf. simpl.
    unfold storeToSummary, modify_state, set_files, set_summary. simpl.
    by rewrite Hf.
  - rewrite bool_decide_eq_true_2 by done. simpl.
    destruct (negb (create_daily_notes cfg)
              || bool_decide (daily_path d ∈ faulty s)); [reflexivity|].
    unfold unawaited, processFrontMatter. simpl.
    rewrite lookup_insert_eq. simpl.
    unfold storeToSummary, modify_state, set_files, set_summary. simpl.
    by rewrite insert_insert_eq, Hf.
Qed.

Lemma for_each_scalar_writes {V} (selector : V -> list N) f l s :
  for_each l (fun '(date, reading) =>
    if includes IGNORED_DATES date then ret tt
    else
      let value := selector reading in
      if negb (str_eqb value (js "undefined"))
      then updateFrontMatter cfg date f value
      else ret tt) s
  = apply_writes cfg f (scalar_writes selector l) s.
Proof.
  revert s. induction l as [|[d e] l IH]; intros s; [reflexivity|].
  cbn [for_each scalar_writes omap list_omap]. unfold bind at 1.
  destruct (includes IGNORED_DATES d); [apply IH|].
  destruct (str_eqb (selector e) (js "undefined")); simpl; [apply IH|].
  rewrite updateFrontMatter_spec.
  destruct (blocked cfg s d); [reflexivity|]. apply IH.
Qed.

(** A scalar projector is the series of its writes. *)
Lemma updateFrontMatterByField_spec {V} (readings : list (list N * V))
    f (selector : V -> list N) s :
  updateFrontMatterByField cfg (Some readings) f selector s
  = apply_writes cfg f (scalar_writes selector (for_in readings)) s.
Proof. apply for_each_scalar_writes. Qed.

End Effects.

(** ** Series of writes to a keyed store are idempotent *)

Section KeyedStore.
Context {S K P : Type}.
Variable write : K -> P -> S -> S.
Variable present : K -> S -> Prop.
Hypothesis key_dec : forall k k' : K, {k = k'} + {k <> k'}.
Hypothesis write_twice : forall k a s,
  write k a (write k a s) = write k a s.
Hypothesis absorb : forall k a b s,
  present k s -> write k b (write k a s) = write k b s.
Hypothesis commute : forall k k' a b s,
  k <> k' -> present k' s ->
  write k' b (write k a s) = write k a (write k' b s).
Hypothesis present_write : forall k a s, present k (write k a s).
Hypothesis present_mono : forall k k' a s,
  present k s -> present k (write k' a s).






End KeyedStore.

(** ** The two stores of the plugin *)

Section Stores.
Context `{Host}.
Variable cfg : HassConnectSettings.
Variable f : list N.


Lemma store_eq v d summ :
  store f v d summ
  = obj_set d (obj_set f v (default [] (obj_get d summ))) summ.
Proof.
  unfold store. destruct (obj_get d summ) as [inner|] eqn:Hd.
  - by rewrite Hd.
  - rewrite obj_get_set_eq. simpl. by rewrite obj_set_twice.
Qed.





End Stores.

(** ** Running a series of writes again *)

Section Rerun.
Context `{Host}.
Variable cfg : HassConnectSettings.
Variable f : list N.









End Rerun.


(** ** The values that the scalar projectors write *)

Section ScalarValues.
Context `{Host}.
Variable cfg : HassConnectSettings.
Variable f : list N.

Lemma apply_writes_ok ws : forall s s',
  apply_writes cfg f ws s = (Ok tt, s') -> s' = effects f ws s.
Proof.
  induction ws as [|[d v] ws IH]; intros s s' Ha; simpl in Ha.
  - by injection Ha.
  - destruct (blocked cfg s d); [discriminate|]. by apply IH.
Qed.

Lemma effects_app ws1 ws2 s :
  effects f (ws1 ++ ws2) s = effects f ws2 (effects f ws1 s).
Proof. unfold effects. by rewrite fold_left_app. Qed.

Lemma field_written_effect v d s : field_written (field_effect f v d s) d f v.
Proof.
  eexists. simpl. unfold write_field. rewrite lookup_insert_eq.
  split; [reflexivity|]. simpl. apply obj_get_set_eq.
Qed.

(** Writes to other documents leave the field as it is. *)
Lemma field_written_frame ws d v : forall s,
  Forall (fun x => daily_path x.1 <> daily_path d) ws ->
  field_written s d f v -> field_written (effects f ws s) d f v.
Proof.
  induction ws as [|[d' v'] ws IH]; intros s Hne Hw; [exact Hw|].
  inv Hne. apply (IH (field_effect f v' d' s)); [done|].
  destruct Hw as (n & Hn & Hv). exists n. split; [|exact Hv].
  simpl in *. unfold write_field. by rewrite lookup_insert_ne.
Qed.

Lemma scalar_writes_dates {V} (selector : V -> list N) (P : list N -> Prop) l :
  Forall (fun x => P x.1) l ->
  Forall (fun x => P x.1) (scalar_writes selector l).
Proof.
  induction 1 as [|[d e] l Hd _ IH]; [constructor|].
  cbn [scalar_writes omap list_omap].
  destruct (includes IGNORED_DATES d); [exact IH|].
  destruct (str_eqb (selector e) (js "undefined")); [exact IH|].
  by constructor.
Qed.

(** The last date of a collection that is written to a document decides
    the value of the field. *)
Lemma updateFrontMatterByField_written {V} (readings : list (list N * V))
    (selector : V -> list N) l1 d e l2 s s' :
  for_in readings = l1 ++ (d, e) :: l2 ->
  includes IGNORED_DATES d = false ->
  selector e <> js "undefined" ->
  Forall (fun x => daily_path x.1 <> daily_path d) l2 ->
  updateFrontMatterByField cfg (Some readings) f selector s = (Ok tt, s') ->
  field_written s' d f (selector e).
Proof.
  intros Hl Hd Hv Hl2 Hu. rewrite updateFrontMatterByField_spec, Hl in Hu.
  unfold scalar_writes in Hu. rewrite omap_app in Hu.
  cbn [omap list_omap] in Hu. rewrite Hd in Hu.
  unfold str_eqb in Hu at 2.
  rewrite bool_decide_eq_false_2 in Hu by done.
  apply apply_writes_ok in Hu as ->.
  rewrite effects_app. cbn [effects fold_left].
  apply field_written_frame; [|apply field_written_effect].
  by apply (scalar_writes_dates selector
              (fun x => daily_path x <> daily_path d)).
Qed.

End ScalarValues.

(** C5, as the code has it.  For every date of a calories, hydration or
    steps collection whose document is not written again by a later date,
    a successful projection leaves in the metadata field the energy
    rounded to the nearest whole number, respectively the volume and the
    count printed as they are, without rounding. *)
Theorem scalar_projectors_write `{Host} (cfg : HassConnectSettings)
    (c : scalar_category) (readings : list (list N * scalar_reading c))
    (l1 l2 : list (list N * scalar_reading c)) (d : list N)
    (e : scalar_reading c) (s s' : State) :
  for_in readings = l1 ++ (d, e) :: l2 ->
  includes IGNORED_DATES d = false ->
  written_value c e <> js "undefined" ->
  Forall (fun x => daily_path x.1 <> daily_path d) l2 ->
  scalar_projector cfg c (Some readings) s = (Ok tt, s') ->
  field_written s' d (scalar_field cfg c) (written_value c e).
Proof.
  destruct c; simpl; intros Hl Hd Hv Hl2 Hu.
  - exact (updateFrontMatterByField_written cfg _ readings _ l1 d e l2 s s'
             Hl Hd Hv Hl2 Hu).
  - exact (updateFrontMatterByField_written cfg _ readings _ l1 d e l2 s s'
             Hl Hd Hv Hl2 Hu).
  - exact (updateFrontMatterByField_written cfg _ readings _ l1 d e l2 s s'
             Hl Hd Hv Hl2 Hu).
Qed.

Lemma scalar_projectors_write_witness :
  field_written
    (updateHydration DEFAULT_SETTINGS (Some example_hydration) empty_state).2
    (js "2024-01-20") (js "mL Hydrated") (js "250.5").
Proof.
  refine (scalar_projectors_write DEFAULT_SETTINGS Hydration
            example_hydration [] [] (js "2024-01-20") example_hydration_day
            empty_state _ _ _ _ _ _).
  - reflexivity.
  - reflexivity.
  - vm_compute. discriminate.
  - constructor.
  - vm_compute. reflexivity.
Defined.

(** C5, as the specification has it, fails for hydration: a volume of
    250.5 is written as ["250.5"], not as the rounded ["251"]. *)
Lemma hydration_not_rounded :
  String_number (Math_round (volume example_hydration_day)) = js "251" /\
  ~ field_written
      (updateHydration DEFAULT_SETTINGS (Some example_hydration) empty_state).2
      (js "2024-01-20") (hydration_field DEFAULT_SETTINGS)
      (String_number (Math_round (volume example_hydration_day))).
Proof.
  split; [vm_compute; reflexivity|].
  intros (n & Hn & Hv).
  vm_compute in Hn. injection Hn as <-.
  vm_compute in Hv. discriminate.
Qed.

(** ** The sentinel key *)

Lemma sort_by_index_Forall {V} (P : list N * V -> Prop) l :
  Forall P l -> Forall P (sort_by_index l).
Proof. intros Hl. by rewrite sort_by_index_perm. Qed.

Lemma for_in_without_key {V} k (o : list (list N * V)) :
  array_index k = None ->
  for_in (without_key k o) = without_key k (for_in o).
Proof.
  intros Hk. unfold for_in, without_key. rewrite filter_app.
  rewrite !list_filter_filter. f_equal.
  - rewrite (filter_all (fun e => e.1 <> k) (sort_by_index _)).
    + f_equal. apply list_filter_iff. intros [k' v]. simpl.
      split; [tauto|]. intros Hi. split; [done|].
      intros ->. rewrite Hk in Hi. by destruct Hi.
    + apply sort_by_index_Forall, Forall_forall.
      intros [k' v] [Hi _]%list_elem_of_filter. simpl in *.
      intros ->. rewrite Hk in Hi. by destruct Hi.
  - apply list_filter_iff. intros [k' v]. simpl. tauto.
Qed.

Lemma scalar_writes_without_key {V} (selector : V -> list N) k l :
  includes IGNORED_DATES k = true ->
  scalar_writes selector (without_key k l) = scalar_writes selector l.
Proof.
  intros Hk. induction l as [|[d e] l IH]; [reflexivity|].
  unfold without_key in *. destruct (decide (d = k)) as [->|Hne].
  - rewrite filter_cons_False by (simpl; tauto).
    rewrite IH. cbn [scalar_writes omap list_omap]. by rewrite Hk.
  - rewrite filter_cons_True by done.
    cbn [scalar_writes omap list_omap]. unfold scalar_writes in IH.
    by rewrite IH.
Qed.

Lemma for_each_without {A} (P : A -> Prop) `{!forall x, Decision (P x)}
    (body : A -> M unit) l :
  (forall x s, ~ P x -> body x s = (Ok tt, s)) ->
  forall s, for_each (filter P l) body s = for_each l body s.
Proof.
  intros Hskip. induction l as [|x l IH]; intros s; [reflexivity|].
  destruct (decide (P x)) as [Hx|Hx].
  - rewrite filter_cons_True by done. simpl. unfold bind.
    destruct (body x s) as [[[]|err] s1]; [apply IH | reflexivity].
  - rewrite filter_cons_False by done. simpl. unfold bind.
    rewrite Hskip by done. apply IH.
Qed.

Section Sentinel.
Context `{Host}.
Variable cfg : HassConnectSettings.

Lemma updateFrontMatterByField_sentinel {V} (readings : list (list N * V))
    f (selector : V -> list N) s :
  updateFrontMatterByField cfg (Some readings) f selector s
  = updateFrontMatterByField cfg
      (Some (without_key (js "lastSleep") readings)) f selector s.
Proof.
  rewrite !updateFrontMatterByField_spec.
  rewrite for_in_without_key by reflexivity.
  by rewrite scalar_writes_without_key.
Qed.

Lemma updateSleep_sentinel (readings : list (list N * SleepDay)) s :
  updateSleep cfg (Some readings) s
  = updateSleep cfg (Some (without_key (js "lastSleep") readings)) s.
Proof.
  unfold updateSleep. rewrite for_in_without_key by reflexivity.
  unfold without_key. symmetry. apply for_each_without.
  intros [d day] s0 Hd. simpl in Hd.
  destruct (decide (d = js "lastSleep")) as [->|]; [reflexivity | tauto].
Qed.

End Sentinel.

(** C3, as the code has it.  The scalar projectors (calories, hydration,
    steps, weight, and any use of [updateFrontMatterByField]) and the sleep
    projector skip the key ["lastSleep"]: they run on a collection as they
    run on the collection without that key. *)
Theorem sentinel_skipped `{Host} (cfg : HassConnectSettings) {V}
    (readings : list (list N * V)) (f : list N) (selector : V -> list N)
    (cal : list (list N * CaloriesDay)) (hyd : list (list N * HydrationDay))
    (stp : list (list N * StepDay))
    (wgt : list (list N * list (list N * number)))
    (slp : list (list N * SleepDay)) (s : State) :
  updateFrontMatterByField cfg (Some readings) f selector s
  = updateFrontMatterByField cfg
      (Some (without_key (js "lastSleep") readings)) f selector s /\
  updateCalories cfg (Some cal) s
  = updateCalories cfg (Some (without_key (js "lastSleep") cal)) s /\
  updateHydration cfg (Some hyd) s
  = updateHydration cfg (Some (without_key (js "lastSleep") hyd)) s /\
  updateSteps cfg (Some stp) s
  = updateSteps cfg (Some (without_key (js "lastSleep") stp)) s /\
  updateWeight cfg (Some wgt) s
  = updateWeight cfg (Some (without_key (js "lastSleep") wgt)) s /\
  updateSleep cfg (Some slp) s
  = updateSleep cfg (Some (without_key (js "lastSleep") slp)) s.
Proof.
  repeat split; try apply updateFrontMatterByField_sentinel.
  apply updateSleep_sentinel.
Qed.

(** C3, as the specification has it, fails for the exercise and the table
    projectors: with the key ["lastSleep"] in the collection they locate a
    document through it (the daily note of the invalid date), create it and
    write to it; without the key they do nothing. *)
Lemma exercise_uses_sentinel :
  (updateExercise DEFAULT_SETTINGS (Some example_exercise_sentinel)
     empty_state).2
  = {| files := {[ js "Daily/Invalid date.md" :=
                     {| frontmatter := [(js "Exercise Minutes", js "30")];
                        content := [] |} ]};
       folders := ∅; faulty := ∅;
       summary := [(js "lastSleep", [(js "Exercise Minutes", js "30")])];
       notices := [] |}
  /\ (updateExercise DEFAULT_SETTINGS
        (Some (without_key (js "lastSleep") example_exercise_sentinel))
        empty_state).2 = empty_state
  /\ files (updateHeartrate DEFAULT_SETTINGS (Some example_heart_sentinel)
              empty_state).2
     = {[ js "Daily/Invalid date/tables/Invalid date Tables.md" :=
            {| frontmatter := [];
               content := js "# Heartrate\n\n| Time     | BPM |\n|----------|-----|\n| 1970-01-01 00:01:40 |  60 |\n| 1970-01-01 00:03:20 |  65 |\n^heartrate\n\n\n# Blood Oxygen\n\n" |} ]}
  /\ (updateHeartrate DEFAULT_SETTINGS
        (Some (without_key (js "lastSleep") example_heart_sentinel))
        empty_state).2 = empty_state.
Proof. repeat split; vm_compute; reflexivity. Qed.

(** ** Rejections end the run *)

Lemma for_each_app {A} (body : A -> M unit) l1 l2 s :
  for_each (l1 ++ l2) body s =
    match for_each l1 body s with
    | (Ok _, s') => for_each l2 body s'
    | (Throw e, s') => (Throw e, s')
    end.
Proof.
  revert s. induction l1 as [|x l1 IH]; intros s; [reflexivity|].
  simpl. unfold bind. destruct (body x s) as [[[]|e] s']; [apply IH | done].
Qed.

(** A loop that awaits its body ends at the first rejection. *)
Lemma for_each_abort {A} (body : A -> M unit) l1 x l2 s s1 e s2 :
  for_each l1 body s = (Ok tt, s1) ->
  body x s1 = (Throw e, s2) ->
  for_each (l1 ++ x :: l2) body s = (Throw e, s2).
Proof.
  intros H1 Hx. rewrite for_each_app, H1. simpl. unfold bind. by rewrite Hx.
Qed.

Section Abort.
Context `{Host}.
Variable cfg : HassConnectSettings.

Lemma runSync_stages resp s :
  status resp = 200 ->
  runSync cfg resp s = for_each (stages cfg (attributes resp)) (fun st => st) s.
Proof.
  intros Hs. unfold runSync, fetchSensorData, bind at 1. rewrite Hs. simpl.
  unfold stages. cbn [for_each]. unfold bind, ret.
  repeat match goal with
  | |- context [match ?c ?s with _ => _ end] =>
      lazymatch c with
      | Notice _ => fail
      | _ => destruct (c s) as [[[]|?] ?]; [|reflexivity]
      end
  end.
  by destruct (Notice _ _) as [[[]|?] ?].
Qed.

Lemma apply_writes_app f ws1 ws2 s :
  apply_writes cfg f (ws1 ++ ws2) s =
    match apply_writes cfg f ws1 s with
    | (Ok _, s') => apply_writes cfg f ws2 s'
    | (Throw e, s') => (Throw e, s')
    end.
Proof.
  revert s. induction ws1 as [|[d v] ws1 IH]; intros s; [reflexivity|].
  simpl. destruct (blocked cfg s d); [reflexivity | apply IH].
Qed.

(** A section rewrite rejects when its document cannot be located. *)
Lemma replaceSection_rejects d h body tbl s e s' :
  h <> [] ->
  dailyNoteFor cfg d tbl s = (Throw e, s') ->
  replaceSection cfg d h body tbl s = (Throw e, s').
Proof.
  intros Hh Hd. unfold replaceSection, str_eqb.
  rewrite bool_decide_eq_false_2 by done. unfold bind. by rewrite Hd.
Qed.

Lemma dailyNotePathFor_table d s :
  nonempty (tables_subfolder cfg) = true ->
  table_folder cfg d ∈ folders s ->
  dailyNotePathFor cfg d true s = (Ok (table_path cfg d), s).
Proof.
  intros Ht Hf. unfold dailyNotePathFor. rewrite Ht. simpl.
  unfold bind, vault_folder_missing. fold (table_folder cfg d).
  rewrite bool_decide_eq_false_2 by (intros Hn; by apply Hn).
  reflexivity.
Qed.

(** Locating the table note of a date rejects when the note is absent and
    the storage refuses to create it. *)
Lemma dailyNoteFor_table_refused d s :
  nonempty (tables_subfolder cfg) = true ->
  table_folder cfg d ∈ folders s ->
  files s !! table_path cfg d = None ->
  create_daily_notes cfg = true ->
  table_path cfg d ∈ faulty s ->
  dailyNoteFor cfg d true s = (Throw (StorageError (table_path cfg d)), s).
Proof.
  intros Ht Hf Hn Hc Hfaulty. unfold dailyNoteFor, bind.
  rewrite dailyNotePathFor_table by done.
  unfold vault_getFileByPath. rewrite Hn, Hc, Ht. simpl.
  unfold vault_create. by rewrite bool_decide_eq_true_2.
Qed.

End Abort.

(** C1, as the code has it.  When a table projector (heart rate, blood
    oxygen) reaches a date whose table note is absent and refused by the
    storage layer, [runSync] rejects with the storage error at once: the
    state is the one left by the dates processed before, and neither the
    remaining dates nor the remaining categories are processed. *)
Theorem creation_failure_aborts_run `{Host} (cfg : HassConnectSettings)
    (resp : Response) {V} (readings : list (list N * list (list N * V)))
    (section : list N) (selector : V -> list N) (header slug : list N)
    (pre post : list (M unit)) (l1 l2 : list (list N * list (list N * V)))
    (d : list N) (samples : list (list N * V)) (s s0 s1 : State) :
  status resp = 200 ->
  stages cfg (attributes resp)
  = pre ++ updateDailyTables cfg (Some readings) section selector header slug
        :: post ->
  for_each pre (fun st => st) s = (Ok tt, s0) ->
  for_in readings = l1 ++ (d, samples) :: l2 ->
  table_rewrites cfg section selector header slug l1 s0 = (Ok tt, s1) ->
  section <> [] ->
  nonempty (tables_subfolder cfg) = true ->
  table_folder cfg d ∈ folders s1 ->
  files s1 !! table_path cfg d = None ->
  create_daily_notes cfg = true ->
  table_path cfg d ∈ faulty s1 ->
  runSync cfg resp s = (Throw (StorageError (table_path cfg d)), s1).
Proof.
  intros Hst Hstages Hpre Hl H1 Hsec Ht Hfold Hf Hc Hfaulty.
  rewrite runSync_stages by done. rewrite Hstages.
  apply for_each_abort with (s1 := s0); [exact Hpre|].
  unfold updateDailyTables. rewrite Hl.
  apply for_each_abort with (s1 := s1); [exact H1|].
  apply replaceSection_rejects; [exact Hsec|].
  by apply dailyNoteFor_table_refused.
Qed.

Lemma creation_failure_aborts_run_witness :
  runSync DEFAULT_SETTINGS example_heart_two_days example_faulty_state
  = (Throw (StorageError (table_path DEFAULT_SETTINGS (js "2024-01-20"))),
     example_faulty_state).
Proof.
  refine (creation_failure_aborts_run DEFAULT_SETTINGS example_heart_two_days
            (default [] (heart (attributes example_heart_two_days)))
            (heartrate_section DEFAULT_SETTINGS)
            (fun e => String_number (bpm e)) (js "BPM") (js "heartrate")
            [updateCalories DEFAULT_SETTINGS None;
             updateExercise DEFAULT_SETTINGS None] _
            [] _ (js "2024-01-20") example_heart_day
            example_faulty_state example_faulty_state example_faulty_state
            _ _ _ _ _ _ _ _ _ _ _).
  - reflexivity.
  - reflexivity.
  - reflexivity.
  - reflexivity.
  - reflexivity.
  - vm_compute. discriminate.
  - reflexivity.
  - apply (bool_decide_unpack _). vm_compute. exact I.
  - reflexivity.
  - reflexivity.
  - apply (bool_decide_unpack _). vm_compute. exact I.
Defined.

(** C1, as the specification has it, fails: when the table note of the
    first day cannot be created the run rejects and leaves the vault
    without notes, whereas the same run without the first day writes the
    table note of the second day. *)
Lemma creation_failure_stops_run :
  (runSync DEFAULT_SETTINGS example_heart_two_days example_faulty_state).1
  = Throw (StorageError (js "Daily/2024/tables/2024-01-20 Tables.md")) /\
  files (runSync DEFAULT_SETTINGS example_heart_two_days
           example_faulty_state).2 = ∅ /\
  files (runSync DEFAULT_SETTINGS example_heart_second_day
           example_faulty_state).2
  = {[ js "Daily/2024/tables/2024-01-21 Tables.md" :=
         {| frontmatter := [];
            content := js "# Heartrate\n\n| Time     | BPM |\n|----------|-----|\n| 1970-01-01 00:01:40 |  60 |\n| 1970-01-01 00:03:20 |  65 |\n^heartrate\n\n\n# Blood Oxygen\n\n" |} ]} /\
  files (runSync DEFAULT_SETTINGS example_heart_two_days
           example_faulty_state).2
  <> files (runSync DEFAULT_SETTINGS example_heart_second_day
              example_faulty_state).2.
Proof.
  assert (H2 : files (runSync DEFAULT_SETTINGS example_heart_second_day
                        example_faulty_state).2
               = {[ js "Daily/2024/tables/2024-01-21 Tables.md" :=
                      {| frontmatter := [];
                         content := js "# Heartrate\n\n| Time     | BPM |\n|----------|-----|\n| 1970-01-01 00:01:40 |  60 |\n| 1970-01-01 00:03:20 |  65 |\n^heartrate\n\n\n# Blood Oxygen\n\n" |} ]})
    by (vm_compute; reflexivity).
  assert (H1 : files (runSync DEFAULT_SETTINGS example_heart_two_days
                        example_faulty_state).2 = ∅)
    by (vm_compute; reflexivity).
  split; [vm_compute; reflexivity|]. split; [exact H1|]. split; [exact H2|].
  rewrite H1, H2. intros Heq.
  apply (f_equal (fun m => m !! js "Daily/2024/tables/2024-01-21 Tables.md"))
    in Heq.
  rewrite lookup_empty, lookup_singleton_eq in Heq. discriminate.
Qed.

(** ** The summary is never cleared *)

Lemma keeps_frame {A} (c : M A) :
  (forall s, summary (c s).2 = summary s) -> keeps_summary c.
Proof. intros Hc s d f Hs. by rewrite Hc. Qed.

Lemma keeps_ret {A} (a : A) : keeps_summary (ret a).
Proof. by apply keeps_frame. Qed.

Lemma keeps_throw {A} e : keeps_summary (@throw A e).
Proof. by apply keeps_frame. Qed.

Lemma keeps_bind {A B} (c : M A) (k : A -> M B) :
  keeps_summary c -> (forall a, keeps_summary (k a)) ->
  keeps_summary (bind c k).
Proof.
  intros Hc Hk s d f Hs. unfold bind. specialize (Hc s d f Hs).
  destruct (c s) as [[a|e] s']; simpl in *; [by apply Hk | exact Hc].
Qed.

Lemma keeps_unawaited {A} (c : M A) :
  keeps_summary c -> keeps_summary (unawaited c).
Proof. intros Hc s d f Hs. exact (Hc s d f Hs). Qed.

Lemma keeps_for_each {A} (body : A -> M unit) l :
  (forall x, keeps_summary (body x)) -> keeps_summary (for_each l body).
Proof.
  intros Hb. induction l as [|x l IH]; [apply keeps_ret|].
  apply keeps_bind; [apply Hb | intros _; exact IH].
Qed.

Lemma keeps_Notice text : keeps_summary (Notice text).
Proof. by apply keeps_frame. Qed.

Lemma keeps_get_state : keeps_summary get_state.
Proof. by apply keeps_frame. Qed.

Lemma keeps_vault_getFileByPath p : keeps_summary (vault_getFileByPath p).
Proof. by apply keeps_frame. Qed.

Lemma keeps_vault_folder_missing p : keeps_summary (vault_folder_missing p).
Proof. by apply keeps_frame. Qed.

Lemma keeps_vault_createFolder p : keeps_summary (vault_createFolder p).
Proof.
  apply keeps_frame. intros s. unfold vault_createFolder.
  by destruct (bool_decide _).
Qed.

Lemma keeps_vault_create p n : keeps_summary (vault_create p n).
Proof.
  apply keeps_frame. intros s. unfold vault_create.
  destruct (bool_decide _); [done|]. by destruct (files s !! p).
Qed.

Lemma keeps_vault_read p : keeps_summary (vault_read p).
Proof.
  apply keeps_frame. intros s. unfold vault_read. by destruct (files s !! p).
Qed.

Lemma keeps_vault_modify p data : keeps_summary (vault_modify p data).
Proof.
  apply keeps_frame. intros s. unfold vault_modify. by destruct (files s !! p).
Qed.

Lemma keeps_processFrontMatter p fn : keeps_summary (processFrontMatter p fn).
Proof.
  apply keeps_frame. intros s. unfold processFrontMatter.
  by destruct (files s !! p).
Qed.

Lemma summary_has_store summ d f d' f' v :
  summary_has summ d f -> summary_has (store f' v d' summ) d f.
Proof.
  intros (inner & Hd & Hf). rewrite store_eq. unfold summary_has.
  destruct (decide (d' = d)) as [->|Hne].
  - rewrite obj_get_set_eq, Hd. eexists. split; [reflexivity|]. simpl.
    destruct (decide (f' = f)) as [->|Hnf].
    + by rewrite obj_get_set_eq.
    + by rewrite obj_get_set_ne.
  - rewrite obj_get_set_ne by done. eauto.
Qed.

Section SummaryKept.
Context `{Host}.
Variable cfg : HassConnectSettings.

Lemma keeps_storeToSummary d f v : keeps_summary (storeToSummary d f v).
Proof.
  intros s d0 f0 Hs. simpl. exact (summary_has_store _ _ _ d f v Hs).
Qed.

Lemma keeps_dailyNotePathFor d tbl : keeps_summary (dailyNotePathFor cfg d tbl).
Proof.
  unfold dailyNotePathFor.
  destruct (tbl && nonempty (tables_subfolder cfg)); [|apply keeps_ret].
  apply keeps_bind; [apply keeps_vault_folder_missing|]. intros missing.
  apply keeps_bind; [|intros _; apply keeps_ret].
  destruct missing; [apply keeps_vault_createFolder | apply keeps_ret].
Qed.

Lemma keeps_dailyNoteFor d tbl : keeps_summary (dailyNoteFor cfg d tbl).
Proof.
  unfold dailyNoteFor.
  apply keeps_bind; [apply keeps_dailyNotePathFor|]. intros p.
  apply keeps_bind; [apply keeps_vault_getFileByPath|]. intros [file|].
  - apply keeps_bind; [apply keeps_ret|]. intros [?|];
      [apply keeps_ret | apply keeps_throw].
  - apply keeps_bind.
    + destruct (create_daily_notes cfg); [|apply keeps_ret].
      destruct (tbl && nonempty (tables_subfolder cfg)).
      * apply keeps_bind; [apply keeps_vault_create|].
        intros ?; apply keeps_ret.
      * apply keeps_bind; [apply keeps_vault_create|].
        intros ?; apply keeps_ret.
    + intros [?|]; [apply keeps_ret | apply keeps_throw].
Qed.

Lemma keeps_updateFrontMatter d f v : keeps_summary (updateFrontMatter cfg d f v).
Proof.
  unfold updateFrontMatter.
  apply keeps_bind; [apply keeps_dailyNoteFor|]. intros file.
  apply keeps_bind; [|intros _; apply keeps_storeToSummary].
  apply keeps_unawaited, keeps_processFrontMatter.
Qed.

Lemma keeps_updateFrontMatterByField {V} (readings : option (list (list N * V)))
    f (selector : V -> list N) :
  keeps_summary (updateFrontMatterByField cfg readings f selector).
Proof.
  destruct readings as [readings|]; [|apply keeps_ret].
  apply keeps_for_each. intros [d e].
  destruct (includes IGNORED_DATES d); [apply keeps_ret|]. simpl.
  destruct (negb _); [apply keeps_updateFrontMatter | apply keeps_ret].
Qed.

Lemma keeps_replaceSection d h body tbl :
  keeps_summary (replaceSection cfg d h body tbl).
Proof.
  unfold replaceSection. destruct (str_eqb h []); [apply keeps_ret|].
  apply keeps_bind; [apply keeps_dailyNoteFor|]. intros file.
  apply keeps_bind; [apply keeps_vault_read|]. intros text.
  destruct (negb _); [apply keeps_ret | apply keeps_vault_modify].
Qed.

Lemma keeps_updateExercise readings : keeps_summary (updateExercise cfg readings).
Proof.
  destruct readings as [readings|]; [|apply keeps_ret].
  apply keeps_for_each. intros [d day].
  apply keeps_bind; [apply keeps_replaceSection|].
  intros _. apply keeps_updateFrontMatter.
Qed.

Lemma keeps_updateDailyTables {V} (readings : option (list (list N * list (list N * V))))
    section (selector : V -> list N) header slug :
  keeps_summary (updateDailyTables cfg readings section selector header slug).
Proof.
  destruct readings as [readings|]; [|apply keeps_ret].
  apply keeps_for_each. intros [d samples]. apply keeps_replaceSection.
Qed.

Lemma keeps_updateSleep_stages d stages : forall total,
  keeps_summary (updateSleep_stages cfg d stages total).
Proof.
  induction stages as [|st stages IH]; intros total; [apply keeps_ret|].
  cbn [updateSleep_stages].
  destruct (includes UNCOUNTED_SLEEP_STAGES (stageFormat st)); [apply IH|].
  apply keeps_bind; [|intros _; apply IH].
  apply keeps_unawaited, keeps_updateFrontMatter.
Qed.

Lemma keeps_updateSleep readings : keeps_summary (updateSleep cfg readings).
Proof.
  destruct readings as [readings|]; [|apply keeps_ret].
  apply keeps_for_each. intros [d day].
  destruct (includes IGNORED_DATES d); [apply keeps_ret|].
  apply keeps_bind; [apply keeps_updateSleep_stages|]. intros total.
  apply keeps_unawaited, keeps_updateFrontMatter.
Qed.

Lemma keeps_updateSummary : keeps_summary (updateSummary cfg).
Proof.
  unfold updateSummary. destruct (str_eqb _ []); [apply keeps_ret|].
  apply keeps_bind; [apply keeps_get_state|]. intros s0.
  apply keeps_for_each. intros [d daily].
  apply keeps_unawaited, keeps_replaceSection.
Qed.

Lemma keeps_runSync resp : keeps_summary (runSync cfg resp).
Proof.
  unfold runSync. apply keeps_bind.
  - unfold fetchSensorData. destruct (status resp =? 404).
    + apply keeps_bind; [apply keeps_Notice | intros _; apply keeps_ret].
    + destruct (negb _); [|apply keeps_ret].
      apply keeps_bind; [apply keeps_Notice | intros _; apply keeps_ret].
  - intros [sd|]; [|apply keeps_ret].
    apply keeps_bind; [apply keeps_updateFrontMatterByField|]. intros _.
    apply keeps_bind; [apply keeps_updateExercise|]. intros _.
    apply keeps_bind; [apply keeps_updateDailyTables|]. intros _.
    apply keeps_bind; [apply keeps_updateFrontMatterByField|]. intros _.
    apply keeps_bind; [apply keeps_updateDailyTables|]. intros _.
    apply keeps_bind; [apply keeps_updateSleep|]. intros _.
    apply keeps_bind; [apply keeps_updateFrontMatterByField|]. intros _.
    apply keeps_bind; [apply keeps_updateFrontMatterByField|]. intros _.
    apply keeps_bind; [apply keeps_updateSummary|]. intros _.
    apply keeps_Notice.
Qed.

End SummaryKept.

(** C6, as the code has it.  The summary is given a fresh object when the
    plugin loads and is never cleared afterwards: every field that it
    holds for a date before a run is still in it after the run, so the
    summary flushed at the end of a run also holds the fields written by
    the runs before it. *)
Theorem summary_persists `{Host} (cfg : HassConnectSettings)
    (resp : Response) (s : State) (d f : list N) :
  summary_has (summary s) d f ->
  summary_has (summary (runSync cfg resp s).2) d f.
Proof. apply keeps_runSync. Qed.

Lemma summary_persists_witness :
  summary_has (summary example_after_first_run)
    (js "2024-01-20") (js "Active Calories") /\
  summary_has
    (summary (runSync DEFAULT_SETTINGS example_second_day
                example_after_first_run).2)
    (js "2024-01-20") (js "Active Calories").
Proof.
  assert (Hs : summary_has (summary example_after_first_run)
                 (js "2024-01-20") (js "Active Calories")).
  { eexists. split; [reflexivity|]. eexists. reflexivity. }
  split; [exact Hs|].
  exact (summary_persists DEFAULT_SETTINGS example_second_day
           example_after_first_run (js "2024-01-20") (js "Active Calories")
           Hs).
Defined.

(** C6, as the specification has it, fails: after a first run for
    2024-01-20 and a second run whose snapshot has 2024-01-21 only, the
    summary that the second run flushes still holds the field written by
    the first; a second run on a freshly loaded plugin would hold the
    fields of 2024-01-21 alone. *)
Lemma summary_spans_runs :
  (runSync DEFAULT_SETTINGS example_first_day
     (onload empty_state).2).2 = example_after_first_run /\
  summary (runSync DEFAULT_SETTINGS example_second_day
             example_after_first_run).2
  = [(js "2024-01-20", [(js "Active Calories", js "100")]);
     (js "2024-01-21", [(js "Active Calories", js "200");
                        (js "Steps", js "5000")])] /\
  summary (runSync DEFAULT_SETTINGS example_second_day
             (onload empty_state).2).2
  = [(js "2024-01-21", [(js "Active Calories", js "200");
                        (js "Steps", js "5000")])].
Proof. repeat split; vm_compute; reflexivity. Qed.

(** ** Rewriting a section: what stays *)


Lemma last_cons_ne {A} (x : A) l (y : A) :
  last (x :: l) <> Some y -> l <> [] -> last l <> Some y.
Proof. intros Hl Hne. destruct l; [done|]. by rewrite last_cons_cons in Hl. Qed.







(** C4 at a body with two dollar signs.  The escaping step changes no
    body, so the body of the exercise list ["  - **30m**: Fun $$ run"] is
    expanded as a replacement template: the document receives a single
    [$]. *)
Theorem dollar_body_not_literal :
  (forall body, String_replace_string body (js "$") (js "$$") = body) /\
  replaceSection_content (js "Oefening") (js "  - **30m**: Fun $$ run\n")
    (js "# Oefening\nold\n# Notes\nkeep\n")
  = js "# Oefening\n  - **30m**: Fun $ run\n\n# Notes\nkeep\n" /\
  content <$> files (updateExercise DEFAULT_SETTINGS
                       (Some example_exercise_dollars)
                       example_note_state).2 !! js "Daily/2024/2024-01-20.md"
  = Some (js "# Oefening\n  - **30m**: Fun $ run\n\n# Notes\nkeep\n").
Proof.
  split; [apply escape_is_identity|]. split; vm_compute; reflexivity.
Qed.


(** ** Invariants of the projectors, generically

    For a reflexive and transitive relation on states that every write of
    the host respects, every computation of the plugin respects it. *)

Section Respects.
Context `{Host}.
Variable cfg : HassConnectSettings.
Variable R : State -> State -> Prop.
Hypothesis R_refl : forall s, R s s.
Hypothesis R_trans : forall s1 s2 s3, R s1 s2 -> R s2 s3 -> R s1 s3.
Hypothesis R_folder : forall s p, R s (set_folders (union {[p]}) s).
Hypothesis R_create : forall s p n,
  files s !! p = None -> R s (set_files (insert p n) s).
Hypothesis R_content : forall s p n data,
  files s !! p = Some n ->
  R s (set_files (insert p {| frontmatter := frontmatter n;
                              content := data |}) s).
Hypothesis R_field : forall s p n f v,
  files s !! p = Some n ->
  R s (set_files (insert p {| frontmatter := obj_set f v (frontmatter n);
                              content := content n |}) s).
Hypothesis R_store : forall s d f v, R s (set_summary (store f v d) s).
Hypothesis R_notice : forall s text,
  R s {| files := files s; folders := folders s; faulty := faulty s;
         summary := summary s; notices := notices s ++ [text] |}.

Lemma respects_ret {A} (a : A) : respects R (ret a).
Proof. intros s. apply R_refl. Qed.

Lemma respects_throw {A} e : respects R (@throw A e).
Proof. intros s. apply R_refl. Qed.

Lemma respects_bind {A B} (c : M A) (k : A -> M B) :
  respects R c -> (forall a, respects R (k a)) -> respects R (bind c k).
Proof.
  intros Hc Hk s. unfold bind. specialize (Hc s).
  destruct (c s) as [[a|e] s']; simpl in *; [|exact Hc].
  eapply R_trans; [exact Hc | apply Hk].
Qed.

Lemma respects_unawaited {A} (c : M A) :
  respects R c -> respects R (unawaited c).
Proof. intros Hc s. apply Hc. Qed.

Lemma respects_for_each {A} (body : A -> M unit) l :
  (forall x, respects R (body x)) -> respects R (for_each l body).
Proof.
  intros Hb. induction l as [|x l IH]; [apply respects_ret|].
  apply respects_bind; [apply Hb | intros _; exact IH].
Qed.

Lemma respects_vault_createFolder p : respects R (vault_createFolder p).
Proof.
  intros s. unfold vault_createFolder.
  destruct (bool_decide _); [apply R_refl | apply R_folder].
Qed.

Lemma respects_vault_create p n : respects R (vault_create p n).
Proof.
  intros s. unfold vault_create. destruct (bool_decide _); [apply R_refl|].
  destruct (files s !! p) eqn:Hp; [apply R_refl | by apply R_create].
Qed.

Lemma respects_vault_modify p data : respects R (vault_modify p data).
Proof.
  intros s. unfold vault_modify.
  destruct (files s !! p) eqn:Hp; [by apply R_content | apply R_refl].
Qed.

Lemma respects_dailyNotePathFor d tbl : respects R (dailyNotePathFor cfg d tbl).
Proof.
  unfold dailyNotePathFor.
  destruct (tbl && nonempty (tables_subfolder cfg)); [|apply respects_ret].
  apply respects_bind; [intros s; apply R_refl|]. intros missing.
  apply respects_bind; [|intros _; apply respects_ret].
  destruct missing; [apply respects_vault_createFolder | apply respects_ret].
Qed.

Lemma respects_dailyNoteFor d tbl : respects R (dailyNoteFor cfg d tbl).
Proof.
  unfold dailyNoteFor.
  apply respects_bind; [apply respects_dailyNotePathFor|]. intros p.
  apply respects_bind; [intros s; apply R_refl|]. intros [file|].
  - apply respects_bind; [apply respects_ret|]. intros [?|];
      [apply respects_ret | apply respects_throw].
  - apply respects_bind.
    + destruct (create_daily_notes cfg); [|apply respects_ret].
      destruct (tbl && nonempty (tables_subfolder cfg));
        (apply respects_bind; [apply respects_vault_create|]);
        intros ?; apply respects_ret.
    + intros [?|]; [apply respects_ret | apply respects_throw].
Qed.

Lemma respects_updateFrontMatter d f v : respects R (updateFrontMatter cfg d f v).
Proof.
  unfold updateFrontMatter.
  apply respects_bind; [apply respects_dailyNoteFor|]. intros file.
  apply respects_bind.
  - apply respects_unawaited. intros s. unfold processFrontMatter.
    destruct (files s !! file) eqn:Hp; [by apply R_field | apply R_refl].
  - intros _ s. apply R_store.
Qed.

Lemma respects_updateFrontMatterByField {V}
    (readings : option (list (list N * V))) f (selector : V -> list N) :
  respects R (updateFrontMatterByField cfg readings f selector).
Proof.
  destruct readings as [readings|]; [|apply respects_ret].
  apply respects_for_each. intros [d e].
  destruct (includes IGNORED_DATES d); [apply respects_ret|]. simpl.
  destruct (negb _); [apply respects_updateFrontMatter | apply respects_ret].
Qed.

Lemma respects_replaceSection d h body tbl :
  respects R (replaceSection cfg d h body tbl).
Proof.
  unfold replaceSection. destruct (str_eqb h []); [apply respects_ret|].
  apply respects_bind; [apply respects_dailyNoteFor|]. intros file.
  apply respects_bind.
  - intros s. unfold vault_read. destruct (files s !! file); apply R_refl.
  - intros text. destruct (negb _);
      [apply respects_ret | apply respects_vault_modify].
Qed.

Lemma respects_updateExercise readings : respects R (updateExercise cfg readings).
Proof.
  destruct readings as [readings|]; [|apply respects_ret].
  apply respects_for_each. intros [d day].
  apply respects_bind; [apply respects_replaceSection|].
  intros _. apply respects_updateFrontMatter.
Qed.

Lemma respects_updateDailyTables {V}
    (readings : option (list (list N * list (list N * V))))
    section (selector : V -> list N) header slug :
  respects R (updateDailyTables cfg readings section selector header slug).
Proof.
  destruct readings as [readings|]; [|apply respects_ret].
  apply respects_for_each. intros [d samples]. apply respects_replaceSection.
Qed.

Lemma respects_updateSleep_stages d stages : forall total,
  respects R (updateSleep_stages cfg d stages total).
Proof.
  induction stages as [|st stages IH]; intros total; [apply respects_ret|].
  cbn [updateSleep_stages].
  destruct (includes UNCOUNTED_SLEEP_STAGES (stageFormat st)); [apply IH|].
  apply respects_bind; [|intros _; apply IH].
  apply respects_unawaited, respects_updateFrontMatter.
Qed.

Lemma respects_updateSleep readings : respects R (updateSleep cfg readings).
Proof.
  destruct readings as [readings|]; [|apply respects_ret].
  apply respects_for_each. intros [d day].
  destruct (includes IGNORED_DATES d); [apply respects_ret|].
  apply respects_bind; [apply respects_updateSleep_stages|]. intros total.
  apply respects_unawaited, respects_updateFrontMatter.
Qed.

Lemma respects_updateSummary : respects R (updateSummary cfg).
Proof.
  unfold updateSummary. destruct (str_eqb _ []); [apply respects_ret|].
  apply respects_bind; [intros s; apply R_refl|]. intros s0.
  apply respects_for_each. intros [d daily].
  apply respects_unawaited, respects_replaceSection.
Qed.

Lemma respects_Notice text : respects R (Notice text).
Proof. intros s. apply R_notice. Qed.

Lemma respects_runSync resp : respects R (runSync cfg resp).
Proof.
  unfold runSync. apply respects_bind.
  - unfold fetchSensorData. destruct (status resp =? 404).
    + apply respects_bind; [apply respects_Notice|].
      intros _; apply respects_ret.
    + destruct (negb _); [|apply respects_ret].
      apply respects_bind; [apply respects_Notice|].
      intros _; apply respects_ret.
  - intros [sd|]; [|apply respects_ret].
    apply respects_bind; [apply respects_updateFrontMatterByField|]. intros _.
    apply respects_bind; [apply respects_updateExercise|]. intros _.
    apply respects_bind; [apply respects_updateDailyTables|]. intros _.
    apply respects_bind; [apply respects_updateFrontMatterByField|]. intros _.
    apply respects_bind; [apply respects_updateDailyTables|]. intros _.
    apply respects_bind; [apply respects_updateSleep|]. intros _.
    apply respects_bind; [apply respects_updateFrontMatterByField|]. intros _.
    apply respects_bind; [apply respects_updateFrontMatterByField|]. intros _.
    apply respects_bind; [apply respects_updateSummary|]. intros _.
    apply respects_Notice.
Qed.

End Respects.

(** ** What a run never does *)

Lemma notes_kept_same s s' : files s' = files s -> notes_kept s s'.
Proof. intros Hf p n Hp. rewrite Hf. eauto. Qed.

Lemma notes_kept_refl s : notes_kept s s.
Proof. by apply notes_kept_same. Qed.

Lemma notes_kept_trans s1 s2 s3 :
  notes_kept s1 s2 -> notes_kept s2 s3 -> notes_kept s1 s3.
Proof.
  intros H12 H23 p n Hp.
  destruct (H12 p n Hp) as (n2 & Hp2 & Hf2).
  destruct (H23 p n2 Hp2) as (n3 & Hp3 & Hf3). eauto.
Qed.

Lemma notes_kept_insert s p n0 :
  (forall n, files s !! p = Some n ->
     forall f, is_Some (obj_get f (frontmatter n)) ->
               is_Some (obj_get f (frontmatter n0))) ->
  notes_kept s (set_files (insert p n0) s).
Proof.
  intros Hn q n Hq. simpl. destruct (decide (p = q)) as [->|Hne].
  - rewrite lookup_insert_eq. eauto.
  - rewrite lookup_insert_ne by done. eauto.
Qed.

Lemma obj_get_set_is_Some {V} k k' (v : V) o :
  is_Some (obj_get k' o) -> is_Some (obj_get k' (obj_set k v o)).
Proof.
  intros Hk. destruct (decide (k = k')) as [->|Hne].
  - by rewrite obj_get_set_eq.
  - by rewrite obj_get_set_ne.
Qed.

(** X1. A run deletes no note and removes no metadata field: every note
    of the vault is still there after [runSync], with at least the fields
    it had. *)
Theorem runSync_keeps_notes `{Host} (cfg : HassConnectSettings)
    (resp : Response) (s : State) (p : list N) (n : Note) :
  files s !! p = Some n ->
  exists n', files (runSync cfg resp s).2 !! p = Some n' /\
    forall f, is_Some (obj_get f (frontmatter n)) ->
              is_Some (obj_get f (frontmatter n')).
Proof.
  revert p n. change (notes_kept s (runSync cfg resp s).2).
  apply respects_runSync.
  - apply notes_kept_refl.
  - apply notes_kept_trans.
  - intros s0 p. by apply notes_kept_same.
  - intros s0 p n Hp. apply notes_kept_insert. congruence.
  - intros s0 p n data Hp. apply notes_kept_insert.
    intros n1 Hn1 f Hf. simpl. congruence.
  - intros s0 p n f v Hp. apply notes_kept_insert.
    intros n1 Hn1 f0 Hf. simpl. apply obj_get_set_is_Some. congruence.
  - intros s0 d f v. by apply notes_kept_same.
  - intros s0 text. by apply notes_kept_same.
Qed.

Lemma runSync_keeps_notes_witness :
  exists n',
    files (runSync DEFAULT_SETTINGS example_second_day
             example_after_first_run).2 !! js "Daily/2024/2024-01-20.md"
    = Some n' /\
    forall f,
      is_Some (obj_get f [(js "Active Calories", js "100")]) ->
      is_Some (obj_get f (frontmatter n')).
Proof.
  exact (runSync_keeps_notes DEFAULT_SETTINGS example_second_day
           example_after_first_run (js "Daily/2024/2024-01-20.md")
           {| frontmatter := [(js "Active Calories", js "100")];
              content := [] |} eq_refl).
Defined.

Lemma text_kept_same s s' : files s' = files s -> text_kept s s'.
Proof. intros Hf p n Hp. rewrite Hf. eauto. Qed.

Lemma text_kept_refl s : text_kept s s.
Proof. by apply text_kept_same. Qed.

Lemma text_kept_trans s1 s2 s3 :
  text_kept s1 s2 -> text_kept s2 s3 -> text_kept s1 s3.
Proof.
  intros H12 H23 p n Hp.
  destruct (H12 p n Hp) as (n2 & Hp2 & Hc2).
  destruct (H23 p n2 Hp2) as (n3 & Hp3 & Hc3).
  exists n3. split; [done | congruence].
Qed.

Lemma text_kept_insert s p n0 :
  (forall n, files s !! p = Some n -> content n0 = content n) ->
  text_kept s (set_files (insert p n0) s).
Proof.
  intros Hn q n Hq. simpl. destruct (decide (p = q)) as [->|Hne].
  - rewrite lookup_insert_eq. eauto.
  - rewrite lookup_insert_ne by done. eauto.
Qed.

(** X2. The projectors that write metadata only, the scalar ones and the
    sleep projector, never change the text of a note: whatever the
    collection and whatever the outcome, every note is still there with
    the text it had. *)
Theorem metadata_projectors_keep_text `{Host} (cfg : HassConnectSettings) {V}
    (readings : option (list (list N * V))) (f : list N)
    (selector : V -> list N) (slp : option (list (list N * SleepDay)))
    (s : State) (p : list N) (n : Note) :
  files s !! p = Some n ->
  (exists n',
     files (updateFrontMatterByField cfg readings f selector s).2 !! p
     = Some n' /\ content n' = content n) /\
  (exists n',
     files (updateSleep cfg slp s).2 !! p = Some n' /\ content n' = content n).
Proof.
  intros Hp. split.
  - revert p n Hp.
    change (text_kept s (updateFrontMatterByField cfg readings f selector s).2).
    apply respects_updateFrontMatterByField.
    + apply text_kept_refl.
    + apply text_kept_trans.
    + intros s0 p. by apply text_kept_same.
    + intros s0 p n Hp. apply text_kept_insert. congruence.
    + intros s0 p n f0 v Hp. apply text_kept_insert.
      intros n1 Hn1. simpl. congruence.
    + intros s0 d f0 v. by apply text_kept_same.
  - revert p n Hp. change (text_kept s (updateSleep cfg slp s).2).
    apply respects_updateSleep.
    + apply text_kept_refl.
    + apply text_kept_trans.
    + intros s0 p. by apply text_kept_same.
    + intros s0 p n Hp. apply text_kept_insert. congruence.
    + intros s0 p n f0 v Hp. apply text_kept_insert.
      intros n1 Hn1. simpl. congruence.
    + intros s0 d f0 v. by apply text_kept_same.
Qed.

Lemma metadata_projectors_keep_text_witness :
  (exists n',
     files (updateFrontMatterByField DEFAULT_SETTINGS
              (Some example_hydration) (js "mL Hydrated")
              (fun e => String_number (volume e)) example_note_state).2
       !! js "Daily/2024/2024-01-20.md" = Some n' /\
     content n' = js "# Oefening\nold\n# Notes\nkeep\n") /\
  (exists n',
     files (updateSleep DEFAULT_SETTINGS None example_note_state).2
       !! js "Daily/2024/2024-01-20.md" = Some n' /\
     content n' = js "# Oefening\nold\n# Notes\nkeep\n").
Proof.
  exact (metadata_projectors_keep_text DEFAULT_SETTINGS
           (Some example_hydration) (js "mL Hydrated")
           (fun e => String_number (volume e)) None example_note_state
           (js "Daily/2024/2024-01-20.md")
           {| frontmatter := [];
              content := js "# Oefening\nold\n# Notes\nkeep\n" |} eq_refl).
Defined.

Lemma metadata_kept_refl s : metadata_kept s s.
Proof. split; [done|]. intros p n Hp. eauto. Qed.

Lemma metadata_kept_trans s1 s2 s3 :
  metadata_kept s1 s2 -> metadata_kept s2 s3 -> metadata_kept s1 s3.
Proof.
  intros [Hs12 H12] [Hs23 H23]. split; [congruence|]. intros p n Hp.
  destruct (H12 p n Hp) as (n2 & Hp2 & Hc2).
  destruct (H23 p n2 Hp2) as (n3 & Hp3 & Hc3).
  exists n3. split; [done | congruence].
Qed.

Lemma metadata_kept_insert s p n0 :
  (forall n, files s !! p = Some n -> frontmatter n0 = frontmatter n) ->
  metadata_kept s (set_files (insert p n0) s).
Proof.
  intros Hn. split; [done|]. intros q n Hq. simpl.
  destruct (decide (p = q)) as [->|Hne].
  - rewrite lookup_insert_eq. eauto.
  - rewrite lookup_insert_ne by done. eauto.
Qed.

(** X3. The table projectors (heart rate, blood oxygen) never touch
    metadata: whatever the collection and whatever the outcome, the summary
    is as it was and every note is still there with the front matter it
    had. *)
Theorem table_projectors_keep_metadata `{Host} (cfg : HassConnectSettings)
    {V} (readings : option (list (list N * list (list N * V))))
    (section : list N) (selector : V -> list N) (header slug : list N)
    (s : State) (p : list N) (n : Note) :
  files s !! p = Some n ->
  summary (updateDailyTables cfg readings section selector header slug s).2
  = summary s /\
  exists n',
    files (updateDailyTables cfg readings section selector header slug s).2
      !! p = Some n' /\ frontmatter n' = frontmatter n.
Proof.
  intros Hp.
  assert (Hk : metadata_kept s
            (updateDailyTables cfg readings section selector header slug s).2).
  { apply respects_updateDailyTables.
    - apply metadata_kept_refl.
    - apply metadata_kept_trans.
    - intros s0 q. split; [done|]. intros q0 n0 Hq. simpl. eauto.
    - intros s0 q n0 Hq. apply metadata_kept_insert. congruence.
    - intros s0 q n0 data Hq. apply metadata_kept_insert.
      intros n1 Hn1. simpl. congruence. }
  destruct Hk as [Hs Hn]. split; [exact Hs | by apply Hn].
Qed.

Lemma table_projectors_keep_metadata_witness :
  summary (updateDailyTables DEFAULT_SETTINGS
             (Some [(js "2024-01-20", example_heart_day)]) (js "Heartrate")
             (fun e => String_number (bpm e)) (js "BPM") (js "heartrate")
             example_after_first_run).2
  = summary example_after_first_run /\
  exists n',
    files (updateDailyTables DEFAULT_SETTINGS
             (Some [(js "2024-01-20", example_heart_day)]) (js "Heartrate")
             (fun e => String_number (bpm e)) (js "BPM") (js "heartrate")
             example_after_first_run).2
      !! js "Daily/2024/2024-01-20.md" = Some n' /\
    frontmatter n' = [(js "Active Calories", js "100")].
Proof.
  exact (table_projectors_keep_metadata DEFAULT_SETTINGS
           (Some [(js "2024-01-20", example_heart_day)]) (js "Heartrate")
           (fun e => String_number (bpm e)) (js "BPM") (js "heartrate")
           example_after_first_run (js "Daily/2024/2024-01-20.md")
           {| frontmatter := [(js "Active Calories", js "100")];
              content := [] |} eq_refl).
Defined.

(** ** Notices *)

Section Silent.
Context `{Host}.
Variable cfg : HassConnectSettings.








End Silent.


(** X5. When the fetch does not answer 200 the run writes nothing: it
    resolves, and the vault and the summary are as they were. *)
Theorem runSync_fetch_failure `{Host} (cfg : HassConnectSettings)
    (resp : Response) (s : State) :
  status resp <> 200 ->
  (runSync cfg resp s).1 = Ok tt /\
  files (runSync cfg resp s).2 = files s /\
  folders (runSync cfg resp s).2 = folders s /\
  summary (runSync cfg resp s).2 = summary s.
Proof.
  intros Hs. unfold runSync, fetchSensorData.
  destruct (status resp =? 404); [done|].
  apply N.eqb_neq in Hs. rewrite Hs. done.
Qed.

Lemma runSync_fetch_failure_witness :
  (runSync DEFAULT_SETTINGS example_server_error empty_state).1 = Ok tt /\
  files (runSync DEFAULT_SETTINGS example_server_error empty_state).2 = ∅ /\
  folders (runSync DEFAULT_SETTINGS example_server_error empty_state).2 = ∅ /\
  summary (runSync DEFAULT_SETTINGS example_server_error empty_state).2 = [].
Proof.
  refine (runSync_fetch_failure DEFAULT_SETTINGS example_server_error
            empty_state _).
  vm_compute. discriminate.
Defined.

(** ** Calls that are not awaited *)

Lemma for_each_resolves {A} (body : A -> M unit) l :
  (forall x s, (body x s).1 = Ok tt) ->
  forall s, (for_each l body s).1 = Ok tt.
Proof.
  intros Hb. induction l as [|x l IH]; intros s; [reflexivity|].
  simpl. unfold bind. specialize (Hb x s).
  destruct (body x s) as [[[]|e] s1]; [apply IH | discriminate].
Qed.

Lemma updateSleep_stages_resolves `{Host} cfg d stages : forall total s,
  exists total', (updateSleep_stages cfg d stages total s).1 = Ok total'.
Proof.
  induction stages as [|st stages IH]; intros total s; [by eexists|].
  cbn [updateSleep_stages].
  destruct (includes UNCOUNTED_SLEEP_STAGES (stageFormat st)); [apply IH|].
  unfold bind, unawaited. apply IH.
Qed.

(** X6. The sleep projector and the summary flush always resolve: their
    updates are not awaited, so a document that cannot be located or
    created does not end them, and it does not end the run. *)
Theorem unawaited_updates_resolve `{Host} (cfg : HassConnectSettings)
    (slp : option (list (list N * SleepDay))) (s : State) :
  (updateSleep cfg slp s).1 = Ok tt /\ (updateSummary cfg s).1 = Ok tt.
Proof.
  split.
  - destruct slp as [readings|]; [|reflexivity].
    apply for_each_resolves. intros [d day] s0.
    destruct (includes IGNORED_DATES d); [reflexivity|].
    unfold bind.
    destruct (updateSleep_stages_resolves cfg d (stage day) (num_of_Z 0) s0)
      as [total Ht].
    destruct (updateSleep_stages cfg d (stage day) (num_of_Z 0) s0)
      as [[t|e] s1]; [reflexivity | discriminate].
  - unfold updateSummary. destruct (str_eqb _ []); [reflexivity|].
    unfold bind, get_state. apply for_each_resolves. by intros [d daily] s0.
Qed.

(** ** The sensor URL does not depend on how the settings are written *)

Lemma endsWith_app s suffix : endsWith (s ++ suffix) suffix = true.
Proof. unfold endsWith. rewrite reverse_app. apply startsWith_app. Qed.

(** X7. Writing the instance URI with its trailing slash, or the sensor
    with its [sensor.] prefix, gives the same URL as writing them
    without. *)
Theorem getSensorURL_normalised (cfg cfg' : HassConnectSettings) :
  endsWith (instance_uri cfg) (js "/") = false ->
  startsWith (sensor cfg) (js "sensor.") = false ->
  instance_uri cfg' = instance_uri cfg ++ js "/"
  \/ instance_uri cfg' = instance_uri cfg ->
  sensor cfg' = js "sensor." ++ sensor cfg \/ sensor cfg' = sensor cfg ->
  getSensorURL cfg' = getSensorURL cfg.
Proof.
  intros Hu Hn Hu' Hn'. unfold getSensorURL. rewrite Hu, Hn.
  destruct Hu' as [-> | ->], Hn' as [-> | ->];
    rewrite ?endsWith_app, ?startsWith_app, ?Hu, ?Hn;
    by rewrite <- ?app_assoc.
Qed.

Lemma getSensorURL_normalised_witness :
  getSensorURL example_settings_long = getSensorURL example_settings_short.
Proof.
  apply getSensorURL_normalised;
    [reflexivity | reflexivity | left; reflexivity | left; reflexivity].
Defined.

(** ** Locating a note *)

Section Locating.
Context `{Host}.
Variable cfg : HassConnectSettings.






End Locating.



(** X9. With note creation switched off, a write for a date whose note
    is absent rejects with ["unable to create daily note!"] and changes
    nothing: the metadata write, and the section rewrite into the daily
    note. *)
Theorem creation_disabled_rejects `{Host} (cfg : HassConnectSettings)
    (d f v heading body : list N) (s : State) :
  create_daily_notes cfg = false ->
  files s !! daily_path d = None ->
  heading <> [] ->
  updateFrontMatter cfg d f v s
  = (Throw (Thrown (js "unable to create daily note!")), s) /\
  replaceSection cfg d heading body false s
  = (Throw (Thrown (js "unable to create daily note!")), s).
Proof.
  intros Hc Hn Hh. split.
  - rewrite updateFrontMatter_spec. unfold blocked, creation_error.
    rewrite Hc, bool_decide_eq_true_2 by done. reflexivity.
  - unfold replaceSection.
    destruct (str_eqb heading []) eqn:He.
    { destruct heading; [done | discriminate]. }
    unfold bind. rewrite dailyNoteFor_plain. rewrite Hn.
    unfold blocked, creation_error.
    rewrite Hc, bool_decide_eq_true_2 by done. reflexivity.
Qed.

Lemma creation_disabled_rejects_witness :
  updateFrontMatter example_settings_no_create (js "2024-01-20")
    (js "Steps") (js "9000") empty_state
  = (Throw (Thrown (js "unable to create daily note!")), empty_state) /\
  replaceSection example_settings_no_create (js "2024-01-20")
    (js "Oefening") (js "body") false empty_state
  = (Throw (Thrown (js "unable to create daily note!")), empty_state).
Proof.
  apply creation_disabled_rejects; [reflexivity | reflexivity | discriminate].
Defined.

(** X10. With no tables subfolder configured, a table is written into
    the daily note itself: the table variant of the section rewrite is the
    plain one. *)
Theorem tables_inline_without_subfolder `{Host} (cfg : HassConnectSettings)
    (d heading body : list N) (s : State) :
  tables_subfolder cfg = [] ->
  replaceSection cfg d heading body true s
  = replaceSection cfg d heading body false s.
Proof.
  intros Ht. unfold replaceSection, dailyNoteFor, dailyNotePathFor.
  rewrite Ht. reflexivity.
Qed.

Lemma tables_inline_without_subfolder_witness :
  replaceSection example_settings_inline (js "2024-01-20") (js "Oefening")
    (js "body") true example_note_state
  = replaceSection example_settings_inline (js "2024-01-20") (js "Oefening")
      (js "body") false example_note_state.
Proof. apply tables_inline_without_subfolder. reflexivity. Defined.

(** ** One metadata write *)

Lemma store_value f v d summ : summary_value (store f v d summ) d f = Some v.
Proof.
  unfold summary_value, store.
  destruct (obj_get d summ); rewrite obj_get_set_eq;
    apply obj_get_set_eq.
Qed.

Lemma store_other f v d summ d' f' :
  (d', f') <> (d, f) ->
  summary_value (store f v d summ) d' f' = summary_value summ d' f'.
Proof.
  intros Hne. unfold summary_value, store.
  destruct (decide (d' = d)) as [->|Hd].
  - assert (f <> f') as Hf by congruence.
    destruct (obj_get d summ) as [inner|] eqn:Hg.
    + rewrite obj_get_set_eq, Hg. apply (obj_get_set_ne f f' v inner Hf).
    + rewrite !obj_get_set_eq. apply (obj_get_set_ne f f' v [] Hf).
  - destruct (obj_get d summ) as [inner|] eqn:Hg.
    + by rewrite obj_get_set_ne.
    + by rewrite !obj_get_set_ne.
Qed.

(** X11. A metadata write that resolves records its value in the
    summary under its date and field, and leaves every other entry of the
    summary as it was: the summary accumulates. *)
Theorem updateFrontMatter_summary `{Host} (cfg : HassConnectSettings)
    (d f v : list N) (s s' : State) :
  updateFrontMatter cfg d f v s = (Ok tt, s') ->
  summary_value (summary s') d f = Some v /\
  forall d' f', (d', f') <> (d, f) ->
    summary_value (summary s') d' f' = summary_value (summary s) d' f'.
Proof.
  rewrite updateFrontMatter_spec.
  destruct (blocked cfg s d); [discriminate|]. intros [= <-].
  split; [apply store_value | intros d' f'; apply store_other].
Qed.

Lemma updateFrontMatter_summary_witness :
  summary_value
    (summary (updateFrontMatter DEFAULT_SETTINGS (js "2024-01-20")
                (js "Steps") (js "9000") empty_state).2)
    (js "2024-01-20") (js "Steps") = Some (js "9000") /\
  forall d' f', (d', f') <> (js "2024-01-20", js "Steps") ->
    summary_value
      (summary (updateFrontMatter DEFAULT_SETTINGS (js "2024-01-20")
                  (js "Steps") (js "9000") empty_state).2) d' f'
    = summary_value (summary empty_state) d' f'.
Proof.
  refine (updateFrontMatter_summary DEFAULT_SETTINGS (js "2024-01-20")
            (js "Steps") (js "9000") empty_state _ _).
  vm_compute. reflexivity.
Defined.



(** ** Sections that are not configured *)




(** ** Stages that are not counted as sleep *)

Lemma insert_by_index_map_values {V W} (g : V -> W) e l :
  insert_by_index (e.1, g e.2) (map_values g l)
  = map_values g (insert_by_index e l).
Proof.
  induction l as [|x l IH]; [reflexivity|]. simpl.
  destruct (_ <? _); [reflexivity|]. simpl. f_equal. exact IH.
Qed.

Lemma sort_by_index_map_values {V W} (g : V -> W) l :
  sort_by_index (map_values g l) = map_values g (sort_by_index l).
Proof.
  induction l as [|x l IH]; [reflexivity|].
  change (insert_by_index (x.1, g x.2) (sort_by_index (map_values g l))
          = map_values g (insert_by_index x (sort_by_index l))).
  rewrite IH. apply insert_by_index_map_values.
Qed.

Lemma filter_map_values {V W} (g : V -> W) (P : list N -> Prop)
    `{!forall k, Decision (P k)} (l : list (list N * V)) :
  filter (fun e => P e.1) (map_values g l)
  = map_values g (filter (fun e => P e.1) l).
Proof.
  induction l as [|x l IH]; [reflexivity|]. simpl.
  destruct (decide (P x.1)).
  - rewrite !filter_cons_True by done. simpl. by rewrite <- IH.
  - by rewrite !filter_cons_False.
Qed.

Lemma for_in_map_values {V W} (g : V -> W) o :
  for_in (map_values g o) = map_values g (for_in o).
Proof.
  unfold for_in.
  pose proof (filter_map_values g (fun k => is_Some (array_index k)) o) as H1.
  pose proof (filter_map_values g (fun k => array_index k = None) o) as H2.
  cbv beta in H1, H2. rewrite H1, H2.
  rewrite sort_by_index_map_values. unfold map_values. by rewrite map_app.
Qed.

Lemma updateSleep_stages_counted `{Host} cfg d stages : forall total s,
  updateSleep_stages cfg d
    (filter (fun st => includes UNCOUNTED_SLEEP_STAGES (stageFormat st)
                       = false) stages) total s
  = updateSleep_stages cfg d stages total s.
Proof.
  induction stages as [|st stages IH]; intros total s; [reflexivity|].
  cbn [updateSleep_stages].
  destruct (includes UNCOUNTED_SLEEP_STAGES (stageFormat st)) eqn:Hu.
  - rewrite filter_cons_False by (rewrite Hu; discriminate). apply IH.
  - rewrite filter_cons_True by done. cbn [updateSleep_stages].
    rewrite Hu. unfold bind.
    destruct (unawaited _ s) as [[[]|e] s1]; [apply IH | reflexivity].
Qed.

Lemma for_each_ext {A} (f g : A -> M unit) l :
  (forall x s, f x s = g x s) -> forall s, for_each l f s = for_each l g s.
Proof.
  intros Hfg. induction l as [|x l IH]; intros s; [reflexivity|].
  simpl. unfold bind. rewrite Hfg.
  destruct (g x s) as [[[]|e] s1]; [apply IH | reflexivity].
Qed.

Lemma for_each_map {A B} (h : A -> B) (f : B -> M unit) l s :
  for_each (map h l) f s = for_each l (fun x => f (h x)) s.
Proof.
  revert s. induction l as [|x l IH]; intros s; [reflexivity|].
  simpl. unfold bind.
  destruct (f (h x) s) as [[[]|e] s1]; [apply IH | reflexivity].
Qed.

(** X14. The stages that are not counted as sleep (["Awake"]) play no
    part in the sleep projector: they get no metadata field and do not
    count towards the total, so a snapshot projects as the same snapshot
    without them. *)
Theorem updateSleep_ignores_uncounted `{Host} (cfg : HassConnectSettings)
    (readings : list (list N * SleepDay)) (s : State) :
  updateSleep cfg (Some (map_values counted_stages readings)) s
  = updateSleep cfg (Some readings) s.
Proof.
  unfold updateSleep. rewrite for_in_map_values. unfold map_values.
  rewrite for_each_map. apply for_each_ext. intros [d day] s0.
  cbn [fst snd counted_stages stage].
  destruct (includes IGNORED_DATES d); [reflexivity|].
  unfold bind. by rewrite updateSleep_stages_counted.
Qed.

(** ** Weight *)


Lemma for_in_Forall {V} (P : list N * V -> Prop) o :
  Forall P o -> Forall P (for_in o).
Proof.
  intros Ho. unfold for_in.
  assert (forall (Q : list N * V -> Prop) `{!forall x, Decision (Q x)},
            Forall P (filter Q o)) as Hf.
  { intros Q ?. apply Forall_forall. intros x [_ Hx]%list_elem_of_filter.
    by eapply Forall_forall in Ho. }
  apply Forall_app. split; [apply sort_by_index_Forall|]; apply Hf.
Qed.



Lemma obj_values_last_greatest {V} (day : list (list N * V)) k v :
  Forall (fun e => is_Some (array_index e.1)) day ->
  (k, v) ∈ day ->
  Forall (fun e => index_or_zero e.1 < index_or_zero k \/ e = (k, v)) day ->
  obj_values_last day = Some v.
Proof.
  intros Hi Hin Hmax. unfold obj_values_last. rewrite for_in_indices by done.
  pose proof (sort_by_index_sorted day) as Hs.
  pose proof (sort_by_index_perm day) as Hp.
  rewrite <- Hp in Hin, Hmax.
  destruct (sort_by_index day) as [|x l] using rev_ind.
  { by apply elem_of_nil in Hin. }
  clear IHl. rewrite last_snoc. simpl. f_equal.
  apply Forall_app in Hmax as [_ Hx]. apply Forall_inv in Hx.
  cbv beta in Hx. destruct Hx as [Hlt | Heq]; [|by subst x]. exfalso.
  apply elem_of_app in Hin as [Hin | Hin%list_elem_of_singleton].
  - assert (index_le (k, v) x) as Hle.
    { clear -Hs Hin. induction l as [|y l IH]; [by apply elem_of_nil in Hin|].
      simpl in Hs. apply StronglySorted_inv in Hs as [Hs Hy].
      apply elem_of_cons in Hin as [-> | Hin].
      - apply Forall_app in Hy as [_ Hy]. by apply Forall_inv in Hy.
      - by apply IH. }
    unfold index_le in Hle. simpl in Hle. lia.
  - subst x. simpl in Hlt. lia.
Qed.

(** X16. Of the weighings of a day, the one with the greatest timestamp
    is written, wherever it stands in the snapshot: a projection that
    resolves leaves it in the weight field of the day's note. *)
Theorem updateWeight_writes_latest `{Host} (cfg : HassConnectSettings)
    (readings l1 l2 : list (list N * list (list N * number)))
    (d : list N) (day : list (list N * number)) (k : list N) (v : number)
    (s s' : State) :
  for_in readings = l1 ++ (d, day) :: l2 ->
  includes IGNORED_DATES d = false ->
  Forall (fun e => is_Some (array_index e.1)) day ->
  (k, v) ∈ day ->
  Forall (fun e => index_or_zero e.1 < index_or_zero k \/ e = (k, v)) day ->
  String_number v <> js "undefined" ->
  Forall (fun x => daily_path x.1 <> daily_path d) l2 ->
  updateWeight cfg (Some readings) s = (Ok tt, s') ->
  field_written s' d (weight_field cfg) (String_number v).
Proof.
  intros Hl Hd Hi Hin Hmax Hv Hl2 Hu. unfold updateWeight in Hu.
  pose proof (updateFrontMatterByField_written cfg (weight_field cfg)
                readings
                (fun e => match obj_values_last e with
                          | Some v => String_number v
                          | None => js "undefined"
                          end)
                l1 d day l2 s s' Hl Hd) as Hw.
  specialize (fun Hne => Hw Hne Hl2 Hu). cbv beta in Hw.
  rewrite (obj_values_last_greatest day k v) in Hw by done.
  by apply Hw.
Qed.

Lemma updateWeight_writes_latest_witness :
  field_written
    (updateWeight DEFAULT_SETTINGS (Some example_weight) empty_state).2
    (js "2024-01-20") (js "Weight") (js "81").
Proof.
  refine (updateWeight_writes_latest DEFAULT_SETTINGS example_weight [] []
            (js "2024-01-20") example_weight_day (js "200") (QNum (81 # 1))
            empty_state _ _ _ _ _ _ _ _ _).
  - reflexivity.
  - reflexivity.
  - repeat constructor; by eexists.
  - apply elem_of_cons. by left.
  - apply Forall_cons. split; [right; reflexivity|].
    apply Forall_cons. split; [left; vm_compute; reflexivity|]. constructor.
  - vm_compute. discriminate.
  - constructor.
  - apply injective_projections; reflexivity.
Defined.

(** ** The matcher finds the section *)

Lemma prev_after_cons p c w : prev_after p (c :: w) = prev_after (Some c) w.
Proof.
  unfold prev_after. rewrite last_cons. by destruct (last w).
Qed.

Lemma prev_after_None w : prev_after None w = last w.
Proof. unfold prev_after. by destruct (last w). Qed.

(** A greedy repetition that can take all of [w] and no more hands [w] to
    its continuation first. *)
Lemma many_all {R} a w : forall prev rest
    (k : list N -> option N -> list N -> option R) x,
  Forall (fun c => atom_ok a c = true) w ->
  match rest with [] => True | c :: _ => atom_ok a c = false end ->
  k w (prev_after prev w) rest = Some x ->
  many a prev (w ++ rest) k = Some x.
Proof.
  induction w as [|c w IH]; intros prev rest k x Hw Hr Hk.
  - simpl. destruct rest as [|c rest]; [exact Hk|]. simpl. by rewrite Hr.
  - apply Forall_cons in Hw as [Hc Hw]. simpl. rewrite Hc.
    assert (many a (Some c) (w ++ rest) (fun w p r => k (c :: w) p r)
            = Some x) as ->; [|reflexivity].
    apply IH; [exact Hw | exact Hr |].
    by rewrite <- (prev_after_cons prev).
Qed.

(** When the continuation refuses all of [w ++ [c]], the repetition gives
    back [c]. *)
Lemma many_all_but_last {R} a w c : forall prev rest
    (k : list N -> option N -> list N -> option R) x,
  Forall (fun c => atom_ok a c = true) (w ++ [c]) ->
  match rest with [] => True | c :: _ => atom_ok a c = false end ->
  (forall p, k (w ++ [c]) p rest = None) ->
  k w (prev_after prev w) (c :: rest) = Some x ->
  many a prev (w ++ c :: rest) k = Some x.
Proof.
  induction w as [|d w IH]; intros prev rest k x Hw Hr Hno Hk.
  - apply Forall_cons in Hw as [Hc _]. simpl. rewrite Hc.
    assert (many a (Some c) rest (fun w p r => k (c :: w) p r) = None) as ->.
    { destruct rest as [|e rest]; simpl; [exact (Hno (Some c))|].
      rewrite Hr. exact (Hno (Some c)). }
    exact Hk.
  - apply Forall_cons in Hw as [Hd Hw]. simpl. rewrite Hd.
    assert (many a (Some d) (w ++ c :: rest) (fun w p r => k (d :: w) p r)
            = Some x) as ->; [|reflexivity].
    apply IH; [exact Hw | exact Hr | exact Hno |].
    by rewrite <- (prev_after_cons prev).
Qed.

Lemma matcher_Lit {R} h : forall prev rest caps
    (k : list N -> option N -> list N -> list (nat * list N) -> option R),
  matcher (Lit h) prev (h ++ rest) caps k
  = k h (prev_after prev h) rest caps.
Proof.
  induction h as [|c h IH]; intros prev rest caps k; [reflexivity|].
  cbn [Lit matcher app atom_ok]. rewrite N.eqb_refl, IH.
  by rewrite <- (prev_after_cons prev).
Qed.

Lemma Forall_repeat_ok a (x : N) n :
  atom_ok a x = true -> Forall (fun c => atom_ok a c = true) (repeat x n).
Proof. intros Hx. induction n; simpl; by constructor. Qed.

(** At the start of a line, the heading part of the pattern takes a
    heading line whole. *)
Lemma heading_matcher {R} h g1 p rest caps
    (k : list N -> option N -> list N -> list (nat * list N) -> option R) x :
  at_bol p = true ->
  heading_line h g1 ->
  (forall p', k g1 p' rest ((1%nat, g1) :: caps) = Some x) ->
  matcher
    (Grp 1 (Cat Bol (Cat (Many1 (Chr 35)) (Cat (One (Chr 32))
       (Cat (Lit h) (Cat (Many (Cls [32])) (One (Chr 10))))))))
    p (g1 ++ rest) caps k = Some x.
Proof.
  intros Hb (n & j & ->) Hk. cbn [matcher]. rewrite Hb.
  rewrite <- !app_assoc. cbn [repeat app atom_ok]. rewrite N.eqb_refl.
  apply many_all.
  - by apply Forall_repeat_ok.
  - reflexivity.
  - cbn [atom_ok]. rewrite N.eqb_refl. rewrite matcher_Lit.
    apply many_all.
    + by apply Forall_repeat_ok.
    + reflexivity.
    + cbn [app atom_ok]. rewrite N.eqb_refl. exact (Hk (Some 10)).
Qed.

(** After the heading line, the rest of the pattern takes the body up to
    the end of the section. *)
Lemma body_matcher {R} old g2 post p caps
    (k : list N -> option N -> list N -> list (nat * list N) -> option R) x :
  Forall (fun c => c <> 35) old ->
  section_end g2 post ->
  (forall p', k (old ++ g2) p' post
                (match g2 with
                 | [] => (2%nat, []) :: (4%nat, []) :: caps
                 | _ => (2%nat, g2) :: (3%nat, g2) :: caps
                 end) = Some x) ->
  matcher
    (Cat (Many (NCls [35]))
       (Grp 2 (Alt (Grp 3 (Cat (One (Chr 10)) (One (Chr 35))))
                   (Grp 4 (Cat Eol (NotAhead (One (Cls [13; 10]))))))))
    p (old ++ g2 ++ post) caps k = Some x.
Proof.
  intros Hold Hend Hk.
  assert (Forall (fun c => atom_ok (NCls [35]) c = true) old) as Hok.
  { eapply Forall_impl; [exact Hold|]. intros c Hc. simpl.
    apply N.eqb_neq in Hc. by rewrite Hc. }
  cbn [matcher]. destruct Hend as [-> | [-> ->]].
  - change ([10; 35] ++ post) with (10 :: 35 :: post).
    apply many_all_but_last.
    + apply Forall_app. split; [exact Hok|]. by repeat constructor.
    + reflexivity.
    + intros p'. reflexivity.
    + cbn. by rewrite (Hk (Some 35)).
  - rewrite app_nil_r. rewrite <- (app_nil_r old) at 1.
    apply many_all; [exact Hok | exact I|].
    cbn. rewrite app_nil_r. specialize (Hk (prev_after p old)).
    by rewrite app_nil_r in Hk.
Qed.

Lemma matcher_Cat {R} r1 r2 p rest caps
    (k : list N -> option N -> list N -> list (nat * list N) -> option R) :
  matcher (Cat r1 r2) p rest caps k
  = matcher r1 p rest caps (fun w1 p1 rest1 caps1 =>
      matcher r2 p1 rest1 caps1 (fun w2 p2 rest2 caps2 =>
        k (w1 ++ w2) p2 rest2 caps2)).
Proof. reflexivity. Qed.

Lemma section_matcher {R} h g1 old g2 post p
    (k : list N -> option N -> list N -> list (nat * list N) -> option R) x :
  at_bol p = true ->
  heading_line h g1 ->
  Forall (fun c => c <> 35) old ->
  section_end g2 post ->
  (forall p', k (g1 ++ old ++ g2) p' post (section_captures g1 g2) = Some x) ->
  matcher (section_regex h) p (g1 ++ old ++ g2 ++ post) [] k = Some x.
Proof.
  intros Hb Hl Hold Hend Hk. unfold section_regex.
  rewrite matcher_Cat.
  apply heading_matcher; [done | done |]. intros p1.
  apply body_matcher; [done | done |]. intros p2.
  unfold section_captures in Hk. destruct g2; apply Hk.
Qed.

(** ** The search reaches the first heading line *)

Lemma exec_from_here re before_rev prev rest res :
  matcher re prev rest []
    (fun w _ rest' caps =>
       Some {| m_before := reverse before_rev; m_matched := w;
               m_after := rest'; m_captures := caps |}) = Some res ->
  exec_from re before_rev prev rest = Some res.
Proof. intros Hm. destruct rest; simpl; by rewrite Hm. Qed.

Lemma section_regex_starts h p rest w p' rest' caps :
  Matches (section_regex h) p rest [] w p' rest' caps ->
  at_bol p = true /\ starts_heading_line h rest = true.
Proof.
  intros HM. destruct (Matches_split _ _ _ _ _ _ _ _ HM) as [-> _].
  apply section_regex_Matches in HM
    as (g1 & old & g2 & Hb & Hl & -> & _).
  split; [exact Hb|]. rewrite <- !app_assoc.
  by apply starts_heading_line_intro.
Qed.

Lemma exec_from_section_skip h pre : forall before_rev prev tail,
  no_heading_within h prev pre tail = true ->
  exec_from (section_regex h) before_rev prev (pre ++ tail)
  = exec_from (section_regex h) (reverse pre ++ before_rev)
      (prev_after prev pre) tail.
Proof.
  induction pre as [|c pre IH]; intros before_rev prev tail Hno;
    [reflexivity|].
  cbn [no_heading_within] in Hno.
  apply andb_true_iff in Hno as [Hhere Hno].
  cbn [app exec_from].
  destruct (matcher _ prev (c :: pre ++ tail) [] _) as [res|] eqn:Hm.
  - exfalso.
    apply matcher_sound in Hm as (w & p' & rest' & caps' & HM & _).
    apply section_regex_starts in HM as [Hb Hs].
    change ((c :: pre) ++ tail) with (c :: pre ++ tail) in Hhere.
    by rewrite Hb, Hs in Hhere.
  - rewrite IH by done. rewrite prev_after_cons, reverse_cons.
    by rewrite <- app_assoc.
Qed.

Lemma RegExp_exec_first_section h pre g1 old g2 post :
  at_bol (last pre) = true ->
  heading_line h g1 ->
  no_heading_within h None pre (g1 ++ old ++ g2 ++ post) = true ->
  Forall (fun c => c <> 35) old ->
  section_end g2 post ->
  RegExp_exec (section_regex h) (pre ++ g1 ++ old ++ g2 ++ post)
  = Some {| m_before := pre; m_matched := g1 ++ old ++ g2; m_after := post;
            m_captures := section_captures g1 g2 |}.
Proof.
  intros Hb Hl Hno Hold Hend. unfold RegExp_exec.
  rewrite exec_from_section_skip by done.
  rewrite prev_after_None, app_nil_r.
  apply exec_from_here. apply section_matcher; try done.
  intros p'. by rewrite reverse_involutive.
Qed.

Lemma section_captures_1 g1 g2 : capture (section_captures g1 g2) 1 = g1.
Proof. by destruct g2. Qed.

Lemma section_captures_2 g1 g2 : capture (section_captures g1 g2) 2 = g2.
Proof. by destruct g2. Qed.

Lemma replaceSection_content_first h body pre g1 old g2 post :
  at_bol (last pre) = true ->
  heading_line h g1 ->
  no_heading_within h None pre (g1 ++ old ++ g2 ++ post) = true ->
  Forall (fun c => c <> 35) old ->
  section_end g2 post ->
  Forall (fun c => c <> 36) body ->
  replaceSection_content h body (pre ++ g1 ++ old ++ g2 ++ post)
  = pre ++ g1 ++ body ++ g2 ++ post.
Proof.
  intros Hb Hl Hno Hold Hend Hbody.
  unfold replaceSection_content, String_replace_regex.
  rewrite escape_is_identity, RegExp_exec_first_section by done.
  cbn [m_before m_matched m_after m_captures].
  rewrite section_regex_groups, section_template_plain by done.
  rewrite section_captures_1, section_captures_2.
  by rewrite <- !app_assoc.
Qed.


(** X17. A section rewrite replaces the body of the first section of
    the name, and nothing else.  The note reads [pre], the first heading
    line [g1] of the section, its body [old] (free of [#]) and its end
    [g2] (the line feed and marker of the next heading, or the end of the
    text); the body handed over is free of [$].  The rewrite then stores
    the same text with [body] in the place of [old], keeps the metadata of
    the note and touches no other note. *)
Theorem replaceSection_rewrites_section `{Host} (cfg : HassConnectSettings)
    (d h body : list N) (tbl : bool) (s : State) (file : list N)
    (note : Note) (pre g1 old g2 post : list N) :
  h <> [] ->
  plain_heading h = true ->
  dailyNoteFor cfg d tbl s = (Ok file, s) ->
  files s !! file = Some note ->
  content note = pre ++ g1 ++ old ++ g2 ++ post ->
  at_bol (last pre) = true ->
  heading_line h g1 ->
  no_heading_within h None pre (g1 ++ old ++ g2 ++ post) = true ->
  Forall (fun c => c <> 35) old ->
  section_end g2 post ->
  Forall (fun c => c <> 36) body ->
  replaceSection cfg d h body tbl s
  = (Ok tt,
     set_files
       (insert file {| frontmatter := frontmatter note;
                       content := pre ++ g1 ++ body ++ g2 ++ post |}) s).
Proof.
  intros Hh _ Hd Hf Hc Hb Hl Hno Hold Hend Hbody. unfold replaceSection.
  destruct (str_eqb h []) eqn:He.
  { destruct h; [done | discriminate]. }
  unfold bind. rewrite Hd. unfold vault_read. rewrite Hf.
  unfold RegExp_test. rewrite Hc, RegExp_exec_first_section by done.
  rewrite bool_decide_eq_true_2 by by eexists.
  cbn [negb]. unfold vault_modify. rewrite Hf.
  by rewrite replaceSection_content_first.
Qed.

Lemma replaceSection_rewrites_section_witness :
  replaceSection DEFAULT_SETTINGS (js "2024-01-20") (js "Oefening")
    (js "  - **30m**: Running\n") false example_note_state
  = (Ok tt,
     set_files
       (insert (js "Daily/2024/2024-01-20.md")
          {| frontmatter := [];
             content := [] ++ js "# Oefening\n" ++ js "  - **30m**: Running\n"
                          ++ [10; 35] ++ js " Notes\nkeep\n" |})
       example_note_state).
Proof.
  refine (replaceSection_rewrites_section DEFAULT_SETTINGS (js "2024-01-20")
            (js "Oefening") (js "  - **30m**: Running\n") false
            example_note_state (js "Daily/2024/2024-01-20.md")
            {| frontmatter := [];
               content := js "# Oefening\nold\n# Notes\nkeep\n" |}
            [] (js "# Oefening\n") (js "old") [10; 35] (js " Notes\nkeep\n")
            _ _ _ _ _ _ _ _ _ _ _).
  - discriminate.
  - reflexivity.
  - apply injective_projections; reflexivity.
  - reflexivity.
  - reflexivity.
  - reflexivity.
  - exists 0%nat, 0%nat. reflexivity.
  - reflexivity.
  - repeat constructor; discriminate.
  - by left.
  - repeat constructor; discriminate.
Defined.

(** ** A heading line ends at the first line feed *)










(** ** A fresh table note *)




(** ** The bodies that the table projectors build *)

Lemma section_safe_app s t :
  section_safe s -> section_safe t -> section_safe (s ++ t).
Proof. intros Hs Ht. apply Forall_app. by split. Qed.

Lemma section_safe_repeat c n :
  c <> 35 -> c <> 36 -> section_safe (repeat c n).
Proof. intros H1 H2. induction n; simpl; by constructor. Qed.

Lemma section_safe_str_repeat s n :
  section_safe s -> section_safe (str_repeat s n).
Proof.
  intros Hs. unfold str_repeat. induction n as [|n IH]; simpl.
  - constructor.
  - by apply section_safe_app.
Qed.

Lemma section_safe_concat (ls : list (list N)) :
  Forall section_safe ls -> section_safe (concat ls).
Proof.
  induction 1 as [|l ls Hl _ IH]; simpl; [constructor|].
  by apply section_safe_app.
Qed.

(** X20. A table is safe to put into a section: when the header, the
    slug, the printed samples and the printed times have no [#] and no
    [$], the rendered table has none, so it does not end its section early
    and is inserted as it is. *)
Theorem generateTableFromData_section_safe `{Host}
    (cfg : HassConnectSettings) {V} (readings : list (list N * V))
    (selector : V -> list N) (header slug : list N) :
  section_safe header ->
  section_safe slug ->
  Forall (fun e => section_safe (selector e.2)
                   /\ section_safe (renderTime cfg (Number_string e.1)))
    readings ->
  section_safe (generateTableFromData cfg readings selector header slug).
Proof.
  intros Hh Hs Hr. rewrite generateTableFromData_unfold.
  assert (forall l : list N,
            forallb (fun c => negb (c =? 35) && negb (c =? 36)) l = true ->
            section_safe l) as Hlit.
  { intros l Hl. induction l as [|c l IH]; [constructor|].
    simpl in Hl. apply andb_true_iff in Hl as [Hc Hl].
    apply andb_true_iff in Hc as [H1%negb_true_iff H2%negb_true_iff].
    constructor; [split; by apply N.eqb_neq | by apply IH]. }
  repeat apply section_safe_app; try (apply Hlit; reflexivity); try done.
  - apply section_safe_str_repeat. apply Hlit. reflexivity.
  - apply section_safe_concat. apply Forall_fmap.
    apply for_in_Forall in Hr. eapply Forall_impl; [exact Hr|].
    intros [t e] [He Ht]. cbn [fst snd] in *. unfold table_row.
    cbn [fst snd].
    repeat apply section_safe_app; try (apply Hlit; reflexivity); try done.
    by apply section_safe_repeat.
Qed.

Lemma generateTableFromData_section_safe_witness :
  section_safe
    (generateTableFromData DEFAULT_SETTINGS example_heart_day
       (fun e => String_number (bpm e)) (js "BPM") (js "heartrate")).
Proof.
  apply generateTableFromData_section_safe.
  - repeat constructor; discriminate.
  - repeat constructor; discriminate.
  - repeat constructor; discriminate.
Defined.

